(** * Allocentric vs. egocentric pose: a model of the notebook

    The notebook [allocentric_vs_egocentric.ipynb] builds two small scenes
    of boxes: one where every box has the same rotation in the camera frame
    (egocentric), one where every box has the same rotation relative to the
    ray from the camera through its centre (allocentric).

    Modelling conventions.
    - numpy's float64 arrays are read as arrays of real numbers ([R]); every
      statement below is about exact real arithmetic, rounding is not
      modelled.
    - a scipy [Rotation] object is represented by the matrix [as_matrix]
      returns, together with the facts that make it a proper rotation;
      [p * q] is scipy's composition, whose matrix is
      [p.as_matrix() @ q.as_matrix()], and [inv] has the transposed matrix.
    - calls into third-party code whose result the notebook cannot see
      into ([Rotation.align_vectors], [Rotation.random], the colormap, the
      meshplot viewer) are parameters of the sections that use them.  What
      [align_vectors] is expected to return is stated separately, as two
      predicates on the returned rotation, and assumed only where a
      statement says so.
    - where a statement turns on the last bit of a float64, the code is
      read a second time in module [F64], on IEEE binary64 numbers with
      the operations in numpy's and scipy's order.
    - a Python exception is the [Raise] branch of [result]. *)

From Stdlib Require Import Reals Lra List String.
From Stdlib Require Floats QArith.
From stdpp Require Import gmap strings.
Import ListNotations.
Open Scope R_scope.

(** ** Python exceptions *)

Inductive exn : Type :=
| ValueError
| IndexError
| AttributeError
| TypeError.

Inductive result (A : Type) : Type :=
| Ok (a : A)
| Raise (e : exn).
Arguments Ok {A} a.
Arguments Raise {A} e.

#[global] Instance result_ret : MRet result := fun _ a => Ok a.
#[global] Instance result_bind : MBind result := fun _ _ k c =>
  match c with
  | Ok a => k a
  | Raise e => Raise e
  end.

(** ** 3-vectors and 3x3 matrices (numpy arrays of shape (3,) and (3,3)) *)

Module Linalg.

Record vec3 : Type := Vec3 { vx : R; vy : R; vz : R }.

(** A matrix is stored by rows, as numpy does. *)
Record mat3 : Type := Mat3 { row0 : vec3; row1 : vec3; row2 : vec3 }.

Definition zeros : vec3 := Vec3 0 0 0.
Definition ones : vec3 := Vec3 1 1 1.

Definition vadd (a b : vec3) : vec3 :=
  Vec3 (vx a + vx b) (vy a + vy b) (vz a + vz b).
Definition vsub (a b : vec3) : vec3 :=
  Vec3 (vx a - vx b) (vy a - vy b) (vz a - vz b).
Definition vmul (a b : vec3) : vec3 :=
  Vec3 (vx a * vx b) (vy a * vy b) (vz a * vz b).
Definition dot (a b : vec3) : R := vx a * vx b + vy a * vy b + vz a * vz b.
Definition norm (a : vec3) : R := sqrt (dot a a).

(** [np.eye(3)] *)
Definition eye : mat3 := Mat3 (Vec3 1 0 0) (Vec3 0 1 0) (Vec3 0 0 1).

(** [np.diag(z)] *)
Definition diag (z : vec3) : mat3 :=
  Mat3 (Vec3 (vx z) 0 0) (Vec3 0 (vy z) 0) (Vec3 0 0 (vz z)).

Definition col0 (m : mat3) : vec3 := Vec3 (vx (row0 m)) (vx (row1 m)) (vx (row2 m)).
Definition col1 (m : mat3) : vec3 := Vec3 (vy (row0 m)) (vy (row1 m)) (vy (row2 m)).
Definition col2 (m : mat3) : vec3 := Vec3 (vz (row0 m)) (vz (row1 m)) (vz (row2 m)).

(** [m.T] *)
Definition transpose (m : mat3) : mat3 := Mat3 (col0 m) (col1 m) (col2 m).

(** [m @ v] *)
Definition mapply (m : mat3) (v : vec3) : vec3 :=
  Vec3 (dot (row0 m) v) (dot (row1 m) v) (dot (row2 m) v).

(** [a @ b], also [np.dot(a, b)] on two matrices *)
Definition mmul (a b : mat3) : mat3 :=
  let r (u : vec3) := Vec3 (dot u (col0 b)) (dot u (col1 b)) (dot u (col2 b)) in
  Mat3 (r (row0 a)) (r (row1 a)) (r (row2 a)).

Definition det (m : mat3) : R :=
  let '(Mat3 (Vec3 a b c) (Vec3 d e f) (Vec3 g h i)) := m in
  a * (e * i - f * h) - b * (d * i - f * g) + c * (d * h - e * g).

(** [k * v] *)
Definition scale (k : R) (v : vec3) : vec3 := Vec3 (k * vx v) (k * vy v) (k * vz v).

(** [v / np.linalg.norm(v)] *)
Definition normalize (v : vec3) : vec3 := scale (/ norm v) v.

(** [np.trace(m)] *)
Definition trace (m : mat3) : R := vx (row0 m) + vy (row1 m) + vz (row2 m).

(** The half turn about the axis [n]: twice the projection on [n], minus
    the identity. *)
Definition half_turn (n : vec3) : mat3 :=
  let k := 2 / dot n n in
  Mat3 (Vec3 (k * vx n * vx n - 1) (k * vx n * vy n) (k * vx n * vz n))
       (Vec3 (k * vy n * vx n) (k * vy n * vy n - 1) (k * vy n * vz n))
       (Vec3 (k * vz n * vx n) (k * vz n * vy n) (k * vz n * vz n - 1)).

Ltac linalg_unfold :=
  repeat match goal with
         | m : mat3 |- _ => destruct m
         | v : vec3 |- _ => destruct v
         end;
  cbv [mmul mapply transpose eye diag dot col0 col1 col2 det scale half_turn
       trace vadd vsub vmul zeros ones row0 row1 row2 vx vy vz] in *;
  repeat match goal with
         | |- Mat3 _ _ _ = Mat3 _ _ _ => f_equal
         | |- Vec3 _ _ _ = Vec3 _ _ _ => f_equal
         end.

Ltac linalg := linalg_unfold; try ring.

End Linalg.

Import Linalg.

(** ** scipy.spatial.transform.Rotation *)

Module Rotation.

(** A rotation object, seen through [as_matrix]: an orthogonal matrix of
    determinant one. *)
Record t : Type := Build {
  as_matrix : mat3;
  orth_l : mmul (transpose as_matrix) as_matrix = eye;
  orth_r : mmul as_matrix (transpose as_matrix) = eye;
  proper : det as_matrix = 1
}.

(** [R.from_matrix(np.eye(3))], which is also [R.identity()] *)
Program Definition identity : t := {| as_matrix := eye |}.
Next Obligation. linalg. Qed.
Next Obligation. linalg. Qed.
Next Obligation. linalg. Qed.

(** [p * q]: the rotation that applies [q] first, then [p]. *)
Program Definition mul (p q : t) : t :=
  {| as_matrix := mmul (as_matrix p) (as_matrix q) |}.
Next Obligation.
  intros [P HP ? ?] [Q HQ ? ?]. cbn [as_matrix].
  replace (mmul (transpose (mmul P Q)) (mmul P Q))
    with (mmul (transpose Q) (mmul (mmul (transpose P) P) Q)) by linalg.
  rewrite HP. replace (mmul eye Q) with Q by linalg. exact HQ.
Qed.
Next Obligation.
  intros [P ? HP ?] [Q ? HQ ?]. cbn [as_matrix].
  replace (mmul (mmul P Q) (transpose (mmul P Q)))
    with (mmul P (mmul (mmul Q (transpose Q)) (transpose P))) by linalg.
  rewrite HQ. replace (mmul eye (transpose P)) with (transpose P) by linalg.
  exact HP.
Qed.
Next Obligation.
  intros [P ? ? HP] [Q ? ? HQ]. cbn [as_matrix].
  replace (det (mmul P Q)) with (det P * det Q) by linalg.
  rewrite HP, HQ. ring.
Qed.

(** [p.inv()] *)
Program Definition inv (p : t) : t := {| as_matrix := transpose (as_matrix p) |}.
Next Obligation.
  intros [P ? HP ?]. cbn [as_matrix].
  replace (transpose (transpose P)) with P by linalg. exact HP.
Qed.
Next Obligation.
  intros [P HP ? ?]. cbn [as_matrix].
  replace (transpose (transpose P)) with P by linalg. exact HP.
Qed.
Next Obligation.
  intros [P ? ? HP]. cbn [as_matrix].
  replace (det (transpose P)) with (det P) by linalg. exact HP.
Qed.

(** [p.apply(v)] *)
Definition apply (p : t) (v : vec3) : vec3 := mapply (as_matrix p) v.

End Rotation.

(** ** The rotation returned by [Rotation.align_vectors] *)

(** The squared distance between [a] and the image of [b] under [C]: what
    is left of the sum [align_vectors(a, b)] minimises when it is given one
    pair of vectors. *)
Definition loss (a b : vec3) (C : Rotation.t) : R :=
  let r := vsub a (Rotation.apply C b) in dot r r.

(** Modelled from the spec: the result of [Rotation.align_vectors], which is
    scipy code that the notebook only calls.  The spec describes the
    alignment rotation as one "solving the vector-alignment least-squares
    problem": no rotation brings [b] closer to [a]. *)
Definition solves_least_squares (a b : vec3) (C : Rotation.t) : Prop :=
  forall C' : Rotation.t, loss a b C <= loss a b C'.

(** Modelled from the spec: the result of [Rotation.align_vectors], which is
    scipy code that the notebook only calls.  The spec asks for the "minimal
    rotation" among the solutions, the one "with minimal angular
    displacement"; the trace of a rotation by the angle [theta] is
    [1 + 2 cos theta], so the smallest angle is the largest trace. *)
Definition minimal_rotation (a b : vec3) (C : Rotation.t) : Prop :=
  solves_least_squares a b C /\
  forall C' : Rotation.t, solves_least_squares a b C' ->
    trace (Rotation.as_matrix C') <= trace (Rotation.as_matrix C).

(** ** numpy helpers used by the notebook *)

(** [np.linspace(start, stop, num)]: [num] evenly spaced samples, both
    ends included; sample [i] is [start + i * step] with
    [step = (stop - start) / (num - 1)]. *)
Definition linspace (start stop : R) (num : nat) : list R :=
  let step := (stop - start) / INR (num - 1) in
  map (fun i => start + INR i * step) (seq 0 num).

(** [np.zeros_like(x)] *)
Definition zeros_like (x : list R) : list R := map (fun _ => 0) x.

(** [np.stack((x, y, z)).T]: row [i] is [(x[i], y[i], z[i])]. *)
Fixpoint stack_T (x y z : list R) : list vec3 :=
  match x, y, z with
  | a :: x', b :: y', c :: z' => Vec3 a b c :: stack_T x' y' z'
  | _, _, _ => []
  end.

(** [a[i, ...]] on an array of shape (n, 3) *)
Definition index (a : list vec3) (i : nat) : result vec3 :=
  match nth_error a i with
  | Some v => Ok v
  | None => Raise IndexError
  end.

(** ** transforms3d.affines.compose *)

(** A 4x4 homogeneous matrix: [lin] is the block [A[:3, :3]], [off] the
    column [A[:3, 3]]; the last row is the [(0, 0, 0, 1)] of [np.eye(4)]. *)
Record affine : Type := Affine { lin : mat3; off : vec3 }.

(** [compose(T, R, Z)]: [A[:3, :3] = R @ diag(Z)], [A[:3, 3] = T]. *)
Definition compose (T : vec3) (R : mat3) (Z : vec3) : affine :=
  {| lin := mmul R (diag Z); off := T |}.

(** ** Values stored in the plot dictionaries *)

Definition face : Type := (nat * nat * nat)%type.

Inductive pyobj : Type :=
| FloatArray (a : list vec3)
| IntArray (a : list face)
| Trimesh (vertices : list vec3) (faces : list face)
| VoxelGrid (box_vertices : list vec3) (box_faces : list face)
| Shading (point_size : R).

(** ** trimesh.creation.box *)

(** The corners of the unit cube centred at the origin, in trimesh's order. *)
Definition unit_box_vertices : list vec3 :=
  map (fun '(a, b, c) => Vec3 (a - 1/2) (b - 1/2) (c - 1/2))
    [(0, 0, 0); (0, 0, 1); (0, 1, 0); (0, 1, 1);
     (1, 0, 0); (1, 0, 1); (1, 1, 0); (1, 1, 1)].

Definition unit_box_faces : list face :=
  [(1, 3, 0); (4, 1, 0); (0, 3, 2); (2, 4, 0); (1, 7, 3); (5, 1, 4);
   (5, 7, 1); (3, 7, 2); (6, 4, 2); (2, 7, 6); (6, 5, 4); (7, 5, 6)]%nat.

(** [mesh.apply_transform(A)] on one vertex *)
Definition apply_transform (A : affine) (v : vec3) : vec3 :=
  vadd (mapply (lin A) v) (off A).

(** [trimesh.creation.box(extents, transform)]: the unit cube scaled by
    [extents], then moved by [transform]. *)
Definition trimesh_box (extents : vec3) (transform : affine)
  : list vec3 * list face :=
  (map (fun v => apply_transform transform (vmul v extents)) unit_box_vertices,
   unit_box_faces).

(** ** The scene cells *)

Section Notebook.

(** State of numpy's global random generator and [R.random()], which draws
    a rotation and advances that state. *)
Variable rng : Type.
Variable R_random : rng -> Rotation.t * rng.

(** [R.align_vectors(a, b)] returns a rotation and a residual, or raises. *)
Variable align_vectors : list vec3 -> list vec3 -> result (Rotation.t * R).

(** [plt.get_cmap('jet')], restricted to the RGB channels. *)
Variable cmap : R -> vec3.

Definition random_colors (cube_colors_random : bool) : list vec3 :=
  if cube_colors_random
  then map cmap (linspace 0 1 12)
  else map (fun _ => cmap (1/2)) (seq 0 12).

Definition cube_colors_random : bool := true.

Definition extent : R := 1/4.

Definition box_plot_data (transform : affine) : gmap string pyobj :=
  let box := trimesh_box (Vec3 extent extent extent) transform in
  <["v" := FloatArray (fst box)]>
    (<["f" := IntArray (snd box)]>
      (<["c" := FloatArray (random_colors cube_colors_random)]> ∅)).

(** *** Egocentric cell *)

Definition rotation (use_random_rotation : bool) (g : rng) : mat3 * rng :=
  if use_random_rotation
  then let '(r, g') := R_random g in (Rotation.as_matrix r, g')
  else (eye, g).

(** The locals of one pass through the loop body. *)
Definition egocentric_translation (i : R) : vec3 := Vec3 i 0 (-1).

Definition egocentric_transform (rotation : mat3) (i : R) : affine :=
  compose (egocentric_translation i) rotation ones.

(** The loop, for any list of positions along X and any shared rotation. *)
Definition egocentric_boxes (rotation : mat3) (xs : list R)
  : list (gmap string pyobj) :=
  map (fun i => box_plot_data (egocentric_transform rotation i)) xs.

Definition egocentric_positions : list R := [-2; -1; 0; 1; 2].

Definition egocentric_cell (use_random_rotation : bool) (g : rng)
  : list (gmap string pyobj) * rng :=
  let '(rot, g') := rotation use_random_rotation g in
  (egocentric_boxes rot egocentric_positions, g').

(** *** Allocentric cell *)

Definition R_allocentric (use_random_rotation : bool) (g : rng)
  : Rotation.t * rng :=
  if use_random_rotation then R_random g else (Rotation.identity, g).

Definition length : R := 2.
Definition eps : R := 1/10.
Definition angle : list R := map (fun a => PI * a) (linspace (-1 + eps) (0 - eps) 5).

Definition object_centers : list vec3 :=
  let x := map (fun a => cos a * length) angle in
  let y := zeros_like x in
  let z := map (fun a => sin a * length) angle in
  stack_T x y z.

Definition principal_axis : vec3 := Vec3 0 0 1.

(** The locals of one pass through the loop body. *)
Record pass : Type := Pass {
  look_at : vec3;
  R_pa_align : Rotation.t;
  R_egocentric : Rotation.t;
  transform : affine
}.

(** The loop body once [look_at] is known: the conversion of the shared
    allocentric rotation into the egocentric rotation of one box. *)
Definition allocentric_body (R_allocentric : Rotation.t) (look_at : vec3)
  : result pass :=
  '(R_pa_align, _) ← align_vectors [look_at] [principal_axis];
  let R_egocentric := Rotation.mul R_pa_align R_allocentric in
  let transform := compose look_at (Rotation.as_matrix R_egocentric) ones in
  Ok (Pass look_at R_pa_align R_egocentric transform).

Definition allocentric_pass (R_allocentric : Rotation.t)
    (object_centers : list vec3) (i : nat) : result pass :=
  look_at ← index object_centers i;
  allocentric_body R_allocentric look_at.

Definition allocentric_passes (R_allocentric : Rotation.t)
    (object_centers : list vec3) (n : nat) : result (list pass) :=
  mapM (allocentric_pass R_allocentric object_centers) (seq 0 n).

Definition allocentric_boxes (R_allocentric : Rotation.t)
    (object_centers : list vec3) (n : nat) : result (list (gmap string pyobj)) :=
  ps ← allocentric_passes R_allocentric object_centers n;
  Ok (map (fun p => box_plot_data (transform p)) ps).

Definition allocentric_cell (use_random_rotation : bool) (g : rng)
  : result (list (gmap string pyobj)) * rng :=
  let '(Ra, g') := R_allocentric use_random_rotation g in
  (allocentric_boxes Ra object_centers 5, g').

(** Both cells, run in order on one generator state. *)
Definition use_random_rotation : bool := false.

Definition run_cells (use_random_rotation : bool) (g : rng)
  : list (gmap string pyobj) * result (list (gmap string pyobj)) * rng :=
  let '(ego, g1) := egocentric_cell use_random_rotation g in
  let '(allo, g2) := allocentric_cell use_random_rotation g1 in
  (ego, allo, g2).

End Notebook.

(** ** The renderer, [visualize3d] *)

Section Renderer.

(** The meshplot viewer: [mp.plot] creates one, the [add_*] methods draw
    into it, [to_html] serialises it.  Each call may raise. *)
Variable viewer : Type.
Variable mp_plot : gmap string pyobj -> result viewer.
Variable add_points : viewer -> gmap string pyobj -> result viewer.
Variable add_mesh : viewer -> gmap string pyobj -> result viewer.
Variable add_lines : viewer -> gmap string pyobj -> result viewer.
Variable to_html : viewer -> result string.

(** One drawing step: the first one creates the viewer with [mp.plot], every
    later one draws into it. *)
Definition draw (add : viewer -> gmap string pyobj -> result viewer)
    (ploot : option viewer) (c : gmap string pyobj) : result (option viewer) :=
  match ploot with
  | None => v ← mp_plot c; Ok (Some v)
  | Some v => v' ← add v c; Ok (Some v')
  end.

(** The rewriting of a mesh dictionary at the top of the second loop. *)
Definition unpack_mesh (m : gmap string pyobj) : result (gmap string pyobj) :=
  match m !! "mesh" with
  | Some (Trimesh v f) =>
      Ok (delete "mesh" (<["f" := IntArray f]> (<["v" := FloatArray v]> m)))
  | Some _ => Raise AttributeError
  | None =>
      match m !! "voxel" with
      | Some (VoxelGrid v f) =>
          Ok (delete "voxel" (<["f" := IntArray f]> (<["v" := FloatArray v]> m)))
      | Some _ => Raise AttributeError
      | None => Ok m
      end
  end.

(** A [for] loop that threads [ploot] through its body. *)
Fixpoint for_each {A : Type} (body : option viewer -> A -> result (option viewer))
    (ploot : option viewer) (l : list A) : result (option viewer) :=
  match l with
  | [] => Ok ploot
  | a :: l' => ploot' ← body ploot a; for_each body ploot' l'
  end.

(** The value of [ploot] when the [return] statement is reached. *)
Definition visualize3d_ploot
    (points meshes lines : option (list (gmap string pyobj)))
  : result (option viewer) :=
  let ploot := None in
  let points := default [] points in
  let meshes := default [] meshes in
  let lines := default [] lines in
  ploot ← for_each (draw add_points) ploot points;
  ploot ← for_each (fun ploot m => m' ← unpack_mesh m; draw add_mesh ploot m')
            ploot meshes;
  for_each (draw add_lines) ploot lines.

Definition visualize3d
    (points meshes lines : option (list (gmap string pyobj)))
  : result string :=
  ploot ← visualize3d_ploot points meshes lines;
  match ploot with
  | None => Raise AttributeError
  | Some v => to_html v
  end.

End Renderer.

(** A viewer that only records the calls made on it. *)
Module ViewerLog.

Definition viewer : Type := list (string * gmap string pyobj).
Definition mp_plot (c : gmap string pyobj) : result viewer := Ok [("plot", c)].
Definition add (what : string) (v : viewer) (c : gmap string pyobj)
  : result viewer := Ok (v ++ [(what, c)]).
Definition to_html (v : viewer) : result string :=
  Ok (String.concat "," (map fst v)).

Definition visualize3d :=
  visualize3d viewer mp_plot (add "points") (add "mesh") (add "lines") to_html.

End ViewerLog.

(** ** The two calls of [visualize3d] in the scene cells *)

(** The single point handed over as [points]: the camera at the origin,
    drawn with point size 0.4. *)
Definition camera_point : gmap string pyobj :=
  <["v" := FloatArray [zeros]]> (<["shading" := Shading (4/10)]> ∅).

Section Display.

Variable viewer : Type.
Variable mp_plot : gmap string pyobj -> result viewer.
Variable add_points add_mesh add_lines
  : viewer -> gmap string pyobj -> result viewer.
Variable to_html : viewer -> result string.

(** [visualize3d(meshes=boxes, points=[camera])]; [lines] keeps its default. *)
Definition show_scene (boxes : list (gmap string pyobj)) : result string :=
  visualize3d viewer mp_plot add_points add_mesh add_lines to_html
    (Some [camera_point]) (Some boxes) None.

End Display.

(** ** Auxiliary notions used in the statements *)

(** What the recording viewer holds after drawing the tagged [items], in
    order, starting from [ploot]: the first item drawn on an absent viewer
    is recorded as the creating call. *)
Definition log_after (ploot : option ViewerLog.viewer)
    (items : list (string * gmap string pyobj)) : option ViewerLog.viewer :=
  match ploot, items with
  | None, [] => None
  | None, (_, c) :: rest => Some (("plot", c) :: rest)
  | Some v, _ => Some (v ++ items)
  end.

(** The sum of an array of vectors, [a.sum(axis=0)]. *)
Definition vsum (a : list vec3) : vec3 := fold_right vadd zeros a.

(** ** The same code on float64 *)

Module F64.

Import Floats QArith.

(** The exact value of a finite float64, as a rational. *)
Definition exact (f : float) : Q :=
  match Prim2SF f with
  | S754_finite s m e =>
      let v := if s then Z.neg m else Z.pos m in
      if (0 <=? e)%Z then inject_Z (v * 2 ^ e) else Qmake v (2 ^ Z.to_pos (- e))
  | _ => 0%Q
  end.

Definition of_nat (n : nat) : float :=
  PrimFloat.of_uint63 (Uint63.of_Z (Z.of_nat n)).

(** [np.pi] *)
Definition pi : float := 0x1.921fb54442d18p+1%float.

(** [np.linspace(start, stop, num)] as numpy computes it: the samples are
    [i * step + start], and the last one is overwritten with [stop]. *)
Definition linspace (start stop : float) (num : nat) : list float :=
  let div := (num - 1)%nat in
  let delta := (stop - start)%float in
  let y := map of_nat (seq 0 num) in
  let y :=
    if (0 <? div)%nat
    then let step := (delta / of_nat div)%float in
         if (step =? 0)%float
         then map (fun i => (i / of_nat div * delta)%float) y
         else map (fun i => (i * step)%float) y
    else map (fun i => (i * delta)%float) y in
  let y := map (fun v => (v + start)%float) y in
  if (1 <? num)%nat then firstn (num - 1) y ++ [stop] else y.

(** *** The object centres *)

Definition length : float := 2%float.
Definition eps : float := 0x1.999999999999ap-4%float.
Definition angle : list float :=
  map (fun a => (pi * a)%float) (linspace (-1 + eps) (0 - eps) 5).

Section Centres.

(** [np.cos] and [np.sin] on one float64. *)
Variable np_cos np_sin : float -> float.

Definition object_centers : list (float * float * float) :=
  let x := map (fun a => (np_cos a * length)%float) angle in
  let y := map (fun _ => 0%float) x in
  let z := map (fun a => (np_sin a * length)%float) angle in
  (fix stack_T (x y z : list float) : list (float * float * float) :=
     match x, y, z with
     | a :: x', b :: y', c :: z' => (a, b, c) :: stack_T x' y' z'
     | _, _, _ => []
     end) x y z.

End Centres.

(** The correctly rounded cosine and sine of the five sampled angles, which
    is also what the C library returns for them; other arguments are not
    tabulated. *)
Definition samples : list (float * (float * float)) :=
  [((-0x1.69e9565708efcp+1)%float,
    ((-0x1.e6f0e134454ffp-1)%float, (-0x1.3c6ef372fe951p-2)%float));
   ((-0x1.197c987c952c4p+1)%float,
    ((-0x1.2cf2304755a5dp-1)%float, (-0x1.9e3779b97f4a8p-1)%float));
   ((-0x1.921fb54442d18p+0)%float,
    (0x1.1a62633145c07p-54%float, (-0x1p+0)%float));
   ((-0x1.e28c731eb694ep-1)%float,
    (0x1.2cf2304755a6p-1%float, (-0x1.9e3779b97f4a6p-1)%float));
   ((-0x1.41b2f769cf0ep-2)%float,
    (0x1.e6f0e134454ffp-1%float, (-0x1.3c6ef372fe94fp-2)%float))].

Fixpoint lookup_sample (t : list (float * (float * float))) (a : float)
  : float * float :=
  match t with
  | [] => (nan, nan)
  | (a', cs) :: t' => if (a =? a')%float then cs else lookup_sample t' a
  end.

Definition cos_sample (a : float) : float := fst (lookup_sample samples a).
Definition sin_sample (a : float) : float := snd (lookup_sample samples a).

(** The squared distance of a stored centre from the origin, without
    rounding. *)
Definition exact_sqnorm (c : float * float * float) : Q :=
  let '(x, y, z) := c in
  (exact x * exact x + exact y * exact y + exact z * exact z)%Q.

(** The distance as float64 arithmetic gives it, [np.sqrt(x*x + y*y + z*z)]. *)
Definition norm (c : float * float * float) : float :=
  let '(x, y, z) := c in PrimFloat.sqrt (x * x + y * y + z * z)%float.

(** *** Rotations, as scipy stores them *)

(** A rotation object holds a quaternion [(x, y, z, w)] of norm one. *)
Record quat : Type := Quat { qx : float; qy : float; qz : float; qw : float }.

(** The normalisation every constructor applies. *)
Definition normalize4 (q : quat) : quat :=
  let s := PrimFloat.sqrt
             (qx q * qx q + qy q * qy q + qz q * qz q + qw q * qw q)%float in
  Quat (qx q / s) (qy q / s) (qz q / s) (qw q / s).


(** What [R.from_matrix(np.eye(3))] holds. *)
Definition identity : quat := Quat 0 0 0 1.

(** The quaternion product behind [p * q]. *)
Definition compose_quat (p q : quat) : quat :=
  let cx := (qy p * qz q - qz p * qy q)%float in
  let cy := (qz p * qx q - qx p * qz q)%float in
  let cz := (qx p * qy q - qy p * qx q)%float in
  Quat (qw p * qx q + qw q * qx p + cx)
       (qw p * qy q + qw q * qy p + cy)
       (qw p * qz q + qw q * qz p + cz)
       (qw p * qw q - qx p * qx q - qy p * qy q - qz p * qz q).

(** [p * q]: the product is normalised again when the result is built. *)
Definition mul (p q : quat) : quat := normalize4 (compose_quat p q).

(** [p.as_matrix()], by rows. *)
Definition as_matrix (q : quat) : list (list float) :=
  let '(Quat x y z w) := q in
  let x2 := (x * x)%float in let y2 := (y * y)%float in
  let z2 := (z * z)%float in let w2 := (w * w)%float in
  let xy := (x * y)%float in let zw := (z * w)%float in
  let xz := (x * z)%float in let yw := (y * w)%float in
  let yz := (y * z)%float in let xw := (x * w)%float in
  [[x2 - y2 - z2 + w2; 2 * (xy - zw); 2 * (xz + yw)];
   [2 * (xy + zw); - x2 + y2 - z2 + w2; 2 * (yz - xw)];
   [2 * (xz - yw); 2 * (yz + xw); - x2 - y2 + z2 + w2]]%float.

(** Line 211 of the notebook. *)
Definition R_egocentric (R_pa_align R_allocentric : quat) : quat :=
  mul R_pa_align R_allocentric.




End F64.

(** ** Sample data *)

(** The quarter turn about the Y axis that sends the principal axis
    [(0, 0, 1)] to [(-1, 0, 0)]. *)
Program Definition quarter_turn_y : Rotation.t :=
  {| Rotation.as_matrix := Mat3 (Vec3 0 0 (-1)) (Vec3 0 1 0) (Vec3 1 0 0) |}.
Next Obligation. linalg. Qed.
Next Obligation. linalg. Qed.
Next Obligation. linalg. Qed.

(** The quarter turn about the Z axis. *)
Program Definition quarter_turn_z : Rotation.t :=
  {| Rotation.as_matrix := Mat3 (Vec3 0 (-1) 0) (Vec3 1 0 0) (Vec3 0 0 1) |}.
Next Obligation. linalg. Qed.
Next Obligation. linalg. Qed.
Next Obligation. linalg. Qed.

(** An aligner that is right for targets on the negative X axis. *)
Definition align_to_minus_x (a b : list vec3) : result (Rotation.t * R) :=
  Ok (quarter_turn_y, 0).

(** An aligner that is right when target and axis are equal. *)
Definition align_equal (a b : list vec3) : result (Rotation.t * R) :=
  Ok (Rotation.identity, 0).

(** A mesh dictionary that still carries its trimesh object, one that
    carries a voxel grid, and their common colour entry. *)
Definition sample_mesh_dict : gmap string pyobj :=
  <["mesh" := Trimesh [zeros; ones] [(0, 1, 0)%nat]]>
    (<["c" := FloatArray [ones]]> ∅).

Definition sample_voxel_dict : gmap string pyobj :=
  <["voxel" := VoxelGrid [zeros; ones] [(0, 1, 1)%nat]]>
    (<["c" := FloatArray [ones]]> ∅).

(** * Properties *)

(** ** Matrices *)

Lemma mmul_assoc (a b c : mat3) : mmul a (mmul b c) = mmul (mmul a b) c.
Proof. linalg. Qed.

Lemma mmul_eye_r (a : mat3) : mmul a eye = a.
Proof. linalg. Qed.

Lemma mmul_eye_l (a : mat3) : mmul eye a = a.
Proof. linalg. Qed.

Lemma mapply_mmul (a b : mat3) (v : vec3) :
  mapply (mmul a b) v = mapply a (mapply b v).
Proof. linalg. Qed.

Lemma mapply_eye (v : vec3) : mapply eye v = v.
Proof. linalg. Qed.

Lemma transpose_mmul (a b : mat3) :
  transpose (mmul a b) = mmul (transpose b) (transpose a).
Proof. linalg. Qed.

Lemma transpose_involutive (a : mat3) : transpose (transpose a) = a.
Proof. linalg. Qed.

Lemma transpose_eye : transpose eye = eye.
Proof. reflexivity. Qed.

Lemma det_mmul (a b : mat3) : det (mmul a b) = det a * det b.
Proof. linalg. Qed.

Lemma det_transpose (a : mat3) : det (transpose a) = det a.
Proof. linalg. Qed.

Lemma det_eye : det eye = 1.
Proof. linalg. Qed.

Lemma diag_ones : diag ones = eye.
Proof. reflexivity. Qed.

(** ** Rotations *)

Lemma rotation_inv_mul_cancel (p q : Rotation.t) :
  Rotation.as_matrix (Rotation.mul (Rotation.inv p) (Rotation.mul p q))
  = Rotation.as_matrix q.
Proof.
  cbn [Rotation.as_matrix Rotation.mul Rotation.inv].
  rewrite mmul_assoc, (Rotation.orth_l p). apply mmul_eye_l.
Qed.

Lemma rotation_mul_identity_r (p : Rotation.t) :
  Rotation.as_matrix (Rotation.mul p Rotation.identity) = Rotation.as_matrix p.
Proof. cbn [Rotation.as_matrix Rotation.mul Rotation.identity]. apply mmul_eye_r. Qed.

Lemma rotation_apply_mul (p q : Rotation.t) (v : vec3) :
  Rotation.apply (Rotation.mul p q) v = Rotation.apply p (Rotation.apply q v).
Proof. unfold Rotation.apply. cbn [Rotation.as_matrix Rotation.mul]. apply mapply_mmul. Qed.

(** ** The error monad *)

Lemma bind_Ok {A B : Type} (c : result A) (k : A -> result B) (b : B) :
  c ≫= k = Ok b -> exists a, c = Ok a /\ k a = Ok b.
Proof. destruct c as [a|e]; [eauto | discriminate]. Qed.

Lemma mapM_Ok_Forall2 {A B : Type} (f : A -> result B) (l : list A) (bs : list B) :
  mapM f l = Ok bs -> Forall2 (fun a b => f a = Ok b) l bs.
Proof.
  revert bs. induction l as [|a l IH]; intros bs H.
  - injection H as <-. constructor.
  - cbn in H. apply bind_Ok in H as (b & Hb & H).
    apply bind_Ok in H as (bs' & Hbs & H). injection H as <-.
    constructor; auto.
Qed.

Section AllocentricFacts.

Variable align_vectors : list vec3 -> list vec3 -> result (Rotation.t * R).

(** What a successful pass through the loop body has computed. *)
Lemma allocentric_body_Ok (Ra : Rotation.t) (c : vec3) (p : pass) :
  allocentric_body align_vectors Ra c = Ok p ->
  exists rssd,
    align_vectors [c] [principal_axis] = Ok (R_pa_align p, rssd) /\
    look_at p = c /\
    R_egocentric p = Rotation.mul (R_pa_align p) Ra /\
    transform p = compose c (Rotation.as_matrix (R_egocentric p)) ones.
Proof.
  unfold allocentric_body. intros H.
  apply bind_Ok in H as ([Rpa rssd] & Halign & H).
  injection H as <-. exists rssd. cbn. auto.
Qed.

Lemma allocentric_pass_Ok (Ra : Rotation.t) (cs : list vec3) (i : nat) (p : pass) :
  allocentric_pass align_vectors Ra cs i = Ok p ->
  exists c, nth_error cs i = Some c /\ allocentric_body align_vectors Ra c = Ok p.
Proof.
  unfold allocentric_pass, index. intros H.
  apply bind_Ok in H as (c & Hc & H). exists c. split; [|exact H].
  destruct (nth_error cs i); [injection Hc as <-; reflexivity | discriminate].
Qed.

(** C2.  In every pass that succeeds, the egocentric rotation is the
    alignment rotation returned by [align_vectors] composed with the shared
    allocentric rotation, in that order: its matrix is the product
    alignment times allocentric, and applying it to a vector applies the
    allocentric rotation first and the alignment after it. *)
Theorem egocentric_composition_order (Ra : Rotation.t) (c : vec3) (p : pass) :
  allocentric_body align_vectors Ra c = Ok p ->
  (exists rssd, align_vectors [c] [principal_axis] = Ok (R_pa_align p, rssd)) /\
  Rotation.as_matrix (R_egocentric p)
    = mmul (Rotation.as_matrix (R_pa_align p)) (Rotation.as_matrix Ra) /\
  (forall v, Rotation.apply (R_egocentric p) v
             = Rotation.apply (R_pa_align p) (Rotation.apply Ra v)) /\
  lin (transform p) = Rotation.as_matrix (R_egocentric p).
Proof.
  intros H. apply allocentric_body_Ok in H as (rssd & Ha & _ & He & Ht).
  split; [eauto|]. rewrite Ht, He. repeat split.
  - intros v. apply rotation_apply_mul.
  - cbn [lin compose]. rewrite diag_ones. apply mmul_eye_r.
Qed.


(** C1.  Whatever the shared allocentric rotation and the list of object
    centres, when the loop has run, composing the inverse of each pass's
    alignment rotation with that pass's egocentric rotation gives back the
    shared allocentric rotation, the same one for every box. *)
Theorem allocentric_rotation_recovered
    (Ra : Rotation.t) (cs : list vec3) (n : nat) (ps : list pass) :
  allocentric_passes align_vectors Ra cs n = Ok ps ->
  List.length ps = n /\
  Forall (fun p =>
            Rotation.as_matrix
              (Rotation.mul (Rotation.inv (R_pa_align p)) (R_egocentric p))
            = Rotation.as_matrix Ra) ps.
Proof.
  unfold allocentric_passes. intros H. apply mapM_Ok_Forall2 in H.
  split.
  - rewrite <- (Forall2_length _ _ _ H). apply length_seq.
  - induction H as [|i p l ps Hp _ IH]; constructor; [|exact IH].
    apply allocentric_pass_Ok in Hp as (c & _ & Hp).
    apply allocentric_body_Ok in Hp as (_ & _ & _ & -> & _).
    apply rotation_inv_mul_cancel.
Qed.

End AllocentricFacts.

(** ** Least-squares alignment *)

Lemma dot_mapply_transpose (m : mat3) (v u : vec3) :
  dot (mapply m v) u = dot v (mapply (transpose m) u).
Proof. linalg_unfold; ring. Qed.

Lemma dot_rotation (C : Rotation.t) (v w : vec3) :
  dot (Rotation.apply C v) (Rotation.apply C w) = dot v w.
Proof.
  unfold Rotation.apply. rewrite dot_mapply_transpose, <- mapply_mmul.
  rewrite Rotation.orth_l. rewrite mapply_eye. reflexivity.
Qed.

Lemma dot_vsub_sq (a x : vec3) :
  dot (vsub a x) (vsub a x) = dot a a - 2 * dot a x + dot x x.
Proof. linalg_unfold; ring. Qed.

Lemma loss_expand a b C : loss a b C = dot a a + dot b b - 2 * dot a (Rotation.apply C b).
Proof. unfold loss. cbv zeta. rewrite dot_vsub_sq, dot_rotation. ring. Qed.

Lemma half_turn_orth (n : vec3) : dot n n <> 0 ->
  mmul (transpose (half_turn n)) (half_turn n) = eye.
Proof. intros H. linalg_unfold; field; exact H. Qed.

Lemma half_turn_sym (n : vec3) : transpose (half_turn n) = half_turn n.
Proof. linalg_unfold; ring. Qed.

Lemma half_turn_det (n : vec3) : dot n n <> 0 -> det (half_turn n) = 1.
Proof. intros H. linalg_unfold; field; exact H. Qed.

Lemma half_turn_rotation (n : vec3) : dot n n <> 0 ->
  exists C : Rotation.t, Rotation.as_matrix C = half_turn n.
Proof.
  intros H.
  assert (Ho := half_turn_orth n H).
  assert (Ho' : mmul (half_turn n) (transpose (half_turn n)) = eye).
  { rewrite half_turn_sym in *. exact Ho. }
  exists (Rotation.Build (half_turn n) Ho Ho' (half_turn_det n H)). reflexivity.
Qed.

Lemma half_turn_apply (n w : vec3) : dot n n <> 0 ->
  mapply (half_turn n) w = vsub (scale (2 * dot n w / dot n n) n) w.
Proof. intros H. linalg_unfold; field; exact H. Qed.

Lemma half_turn_swaps (u w : vec3) :
  dot u u = dot w w -> dot (vadd u w) (vadd u w) <> 0 ->
  mapply (half_turn (vadd u w)) w = u.
Proof.
  intros He Hn. rewrite half_turn_apply by exact Hn.
  assert (Hnn : dot (vadd u w) (vadd u w) = 2 * dot (vadd u w) w).
  { revert He. linalg_unfold. intros He. lra. }
  replace (2 * dot (vadd u w) w / dot (vadd u w) (vadd u w)) with 1
    by (rewrite <- Hnn; field; exact Hn).
  linalg_unfold; ring.
Qed.

Lemma half_turn_perp (n w : vec3) :
  dot n n <> 0 -> dot n w = 0 -> mapply (half_turn n) w = scale (-1) w.
Proof.
  intros Hn Hp. rewrite half_turn_apply by exact Hn. rewrite Hp.
  replace (2 * 0 / dot n n) with 0 by (field; exact Hn).
  linalg_unfold; ring.
Qed.

Lemma dot_self_zero (v : vec3) : dot v v = 0 -> v = zeros.
Proof. intros H. destruct v as [x y z]. cbv [dot vx vy vz] in H. unfold zeros. f_equal; nra. Qed.

Lemma dot_self_nonneg (v : vec3) : 0 <= dot v v.
Proof. linalg_unfold. nra. Qed.

Lemma exists_perpendicular (w : vec3) : exists n, dot n n <> 0 /\ dot n w = 0.
Proof.
  destruct w as [x y z].
  destruct (Req_dec x 0) as [-> | Hx].
  - exists (Vec3 1 0 0). linalg_unfold. split; lra.
  - exists (Vec3 (- y) x 0). linalg_unfold. split; nra.
Qed.

Lemma exists_aligning_rotation (u w : vec3) :
  dot u u = dot w w ->
  exists C : Rotation.t, Rotation.apply C w = u.
Proof.
  intros He.
  destruct (Req_dec (dot (vadd u w) (vadd u w)) 0) as [H0 | Hn].
  - destruct (exists_perpendicular w) as (n & Hn & Hp).
    destruct (half_turn_rotation n Hn) as (C & HC). exists C.
    unfold Rotation.apply. rewrite HC, half_turn_perp by assumption.
    apply dot_self_zero in H0. revert H0. clear. linalg_unfold. intros H.
    injection H as H1 H2 H3. f_equal; lra.
  - destruct (half_turn_rotation _ Hn) as (C & HC). exists C.
    unfold Rotation.apply. rewrite HC. apply half_turn_swaps; assumption.
Qed.

Lemma mapply_scale (m : mat3) (k : R) (v : vec3) :
  mapply m (scale k v) = scale k (mapply m v).
Proof. linalg_unfold; ring. Qed.

Lemma dot_scale_l (k : R) (v w : vec3) : dot (scale k v) w = k * dot v w.
Proof. linalg_unfold; ring. Qed.

Lemma dot_scale_r (k : R) (v w : vec3) : dot v (scale k w) = k * dot v w.
Proof. linalg_unfold; ring. Qed.

Lemma scale_scale (k l : R) (v : vec3) : scale k (scale l v) = scale (k * l) v.
Proof. linalg_unfold; ring. Qed.

Lemma vsub_zero (a b : vec3) : vsub a b = zeros -> a = b.
Proof.
  destruct a, b. cbv [vsub zeros vx vy vz]. intros H. injection H as H1 H2 H3.
  f_equal; lra.
Qed.

Lemma norm_sq (v : vec3) : norm v * norm v = dot v v.
Proof. unfold norm. apply sqrt_sqrt, dot_self_nonneg. Qed.

Lemma norm_pos (v : vec3) : v <> zeros -> 0 < norm v.
Proof.
  intros Hv. unfold norm. apply sqrt_lt_R0.
  destruct (dot_self_nonneg v) as [H | H]; [exact H|].
  exfalso. apply Hv, dot_self_zero. symmetry. exact H.
Qed.

Lemma least_squares_aligns (a b : vec3) (C : Rotation.t) :
  a <> zeros -> b <> zeros -> solves_least_squares a b C ->
  Rotation.apply C (normalize b) = normalize a.
Proof.
  intros Ha Hb Hopt.
  pose proof (norm_pos a Ha) as Hla. pose proof (norm_pos b Hb) as Hlb.
  pose proof (norm_sq a) as Ha2. pose proof (norm_sq b) as Hb2.
  set (la := norm a) in *. set (lb := norm b) in *.
  destruct (exists_aligning_rotation (scale lb a) (scale la b)) as (C' & HC').
  { rewrite !dot_scale_l, !dot_scale_r, <- Ha2, <- Hb2. ring. }
  assert (Hbest : dot a (Rotation.apply C' b) = la * lb).
  { unfold Rotation.apply in *. rewrite mapply_scale in HC'.
    apply (f_equal (dot a)) in HC'. rewrite !dot_scale_r, <- Ha2 in HC'.
    apply (Rmult_eq_reg_l la); [|lra]. rewrite HC'. ring. }
  specialize (Hopt C'). rewrite !loss_expand, Hbest in Hopt.
  set (x := Rotation.apply C b) in *.
  assert (Hx : dot x x = lb * lb).
  { unfold x. rewrite dot_rotation. symmetry. exact Hb2. }
  assert (Hd : vsub (scale lb a) (scale la x) = zeros).
  { apply dot_self_zero. apply Rle_antisym; [|apply dot_self_nonneg].
    rewrite dot_vsub_sq, !dot_scale_l, !dot_scale_r, Hx, <- Ha2.
    assert (0 < la * lb) by (apply Rmult_lt_0_compat; assumption).
    nra. }
  apply vsub_zero in Hd.
  unfold normalize. fold la lb. unfold Rotation.apply. rewrite mapply_scale.
  fold (Rotation.apply C b). fold x.
  apply (f_equal (scale (/ (la * lb)))) in Hd. rewrite !scale_scale in Hd.
  replace (/ (la * lb) * lb) with (/ la) in Hd by (field; lra).
  replace (/ (la * lb) * la) with (/ lb) in Hd by (field; lra).
  symmetry. exact Hd.
Qed.

Lemma rows_unit (C : Rotation.t) :
  let m := Rotation.as_matrix C in
  dot (row0 m) (row0 m) = 1 /\ dot (row1 m) (row1 m) = 1 /\ dot (row2 m) (row2 m) = 1.
Proof.
  pose proof (Rotation.orth_r C) as H. cbv zeta.
  destruct (Rotation.as_matrix C) as [[a b c] [d e f] [g h i]].
  cbv [mmul transpose eye dot col0 col1 col2 row0 row1 row2 vx vy vz] in *.
  injection H as H0 _ _ _ H4 _ _ _ H8. auto.
Qed.

Lemma trace_max_identity (C : Rotation.t) :
  3 <= trace (Rotation.as_matrix C) -> Rotation.as_matrix C = eye.
Proof.
  pose proof (rows_unit C) as (H0 & H1 & H2). cbv zeta in *.
  destruct (Rotation.as_matrix C) as [[a b c] [d e f] [g h i]].
  cbv [trace dot row0 row1 row2 vx vy vz eye] in *. intros Ht.
  assert (a <= 1) by nra. assert (e <= 1) by nra. assert (i <= 1) by nra.
  assert (a = 1) by lra. assert (e = 1) by lra. assert (i = 1) by lra.
  subst. repeat f_equal; nra.
Qed.

Lemma loss_nonneg a b C : 0 <= loss a b C.
Proof. unfold loss. cbv zeta. apply dot_self_nonneg. Qed.

Lemma loss_identity_same a : loss a a Rotation.identity = 0.
Proof.
  unfold loss, Rotation.apply. cbn [Rotation.as_matrix Rotation.identity].
  rewrite mapply_eye. linalg_unfold; ring.
Qed.

Lemma identity_solves_same a : solves_least_squares a a Rotation.identity.
Proof. intros C'. rewrite loss_identity_same. apply loss_nonneg. Qed.

Lemma trace_eye : trace eye = 3.
Proof. cbv [trace eye row0 row1 row2 vx vy vz]. ring. Qed.

Lemma minimal_rotation_same (a : vec3) (C : Rotation.t) :
  minimal_rotation a a C -> Rotation.as_matrix C = eye.
Proof.
  intros [_ Hmin]. apply trace_max_identity.
  specialize (Hmin _ (identity_solves_same a)).
  cbn [Rotation.as_matrix Rotation.identity] in Hmin. rewrite trace_eye in Hmin. exact Hmin.
Qed.

Lemma trace_le_3 (C : Rotation.t) : trace (Rotation.as_matrix C) <= 3.
Proof.
  pose proof (rows_unit C) as (H0 & H1 & H2). cbv zeta in *.
  destruct (Rotation.as_matrix C) as [[a b c] [d e f] [g h i]].
  cbv [trace dot row0 row1 row2 vx vy vz eye] in *.
  assert (a <= 1) by nra. assert (e <= 1) by nra. assert (i <= 1) by nra. lra.
Qed.

Lemma identity_minimal_same (a : vec3) : minimal_rotation a a Rotation.identity.
Proof.
  split; [apply identity_solves_same|]. intros C' _.
  cbn [Rotation.as_matrix Rotation.identity]. rewrite trace_eye. apply trace_le_3.
Qed.

Lemma cauchy_schwarz (a x : vec3) : dot a x * dot a x <= dot a a * dot x x.
Proof.
  destruct a as [a1 a2 a3], x as [x1 x2 x3]. cbv [dot vx vy vz].
  assert (H : (a1 * a1 + a2 * a2 + a3 * a3) * (x1 * x1 + x2 * x2 + x3 * x3)
              - (a1 * x1 + a2 * x2 + a3 * x3) * (a1 * x1 + a2 * x2 + a3 * x3)
              = (a1 * x2 - a2 * x1) * (a1 * x2 - a2 * x1)
                + (a1 * x3 - a3 * x1) * (a1 * x3 - a3 * x1)
                + (a2 * x3 - a3 * x2) * (a2 * x3 - a3 * x2)) by ring.
  pose proof (Rle_0_sqr (a1 * x2 - a2 * x1)) as H1.
  pose proof (Rle_0_sqr (a1 * x3 - a3 * x1)) as H2.
  pose proof (Rle_0_sqr (a2 * x3 - a3 * x2)) as H3.
  unfold Rsqr in *. lra.
Qed.

Lemma norm_nonneg (v : vec3) : 0 <= norm v.
Proof. apply sqrt_pos. Qed.

Lemma dot_le_norms (a x : vec3) : dot a x <= norm a * norm x.
Proof.
  pose proof (cauchy_schwarz a x) as H.
  pose proof (norm_nonneg a) as Ha. pose proof (norm_nonneg x) as Hx.
  rewrite <- (norm_sq a), <- (norm_sq x) in H.
  assert (0 <= norm a * norm x) by (apply Rmult_le_pos; assumption).
  nra.
Qed.

Lemma norm_rotation (C : Rotation.t) (v : vec3) : norm (Rotation.apply C v) = norm v.
Proof. unfold norm. rewrite dot_rotation. reflexivity. Qed.

Lemma aligned_solves_least_squares (a b : vec3) (C : Rotation.t) :
  scale (norm a) (Rotation.apply C b) = scale (norm b) a ->
  solves_least_squares a b C.
Proof.
  intros Hal C'. rewrite !loss_expand.
  assert (Hd : dot a (Rotation.apply C b) = norm a * norm b).
  { apply (f_equal (dot a)) in Hal. rewrite !dot_scale_r, <- norm_sq in Hal.
    destruct (norm_nonneg a) as [Hpos | Hz].
    - apply (Rmult_eq_reg_l (norm a)); [|lra]. rewrite Hal. ring.
    - rewrite <- Hz. rewrite Rmult_0_l.
      assert (a = zeros) as -> by (apply dot_self_zero; rewrite <- norm_sq, <- Hz; ring).
      destruct (Rotation.apply C b). cbv [dot zeros vx vy vz]. ring. }
  pose proof (dot_le_norms a (Rotation.apply C' b)) as H.
  rewrite norm_rotation in H. lra.
Qed.

Lemma quarter_turn_y_solves :
  solves_least_squares (Vec3 (-2) 0 0) principal_axis quarter_turn_y.
Proof.
  apply aligned_solves_least_squares.
  assert (Ha : norm (Vec3 (-2) 0 0) = 2).
  { unfold norm, dot. cbn [vx vy vz].
    replace (-2 * -2 + 0 * 0 + 0 * 0) with (2 * 2) by ring. apply sqrt_square. lra. }
  assert (Hb : norm principal_axis = 1).
  { unfold norm, dot, principal_axis. cbn [vx vy vz].
    replace (0 * 0 + 0 * 0 + 1 * 1) with (1 * 1) by ring. apply sqrt_square. lra. }
  rewrite Ha, Hb. unfold Rotation.apply, principal_axis.
  cbn [Rotation.as_matrix quarter_turn_y]. linalg_unfold; ring.
Qed.

(** C3.  When the call [align_vectors([t], [pa])] on a non-zero target and
    a non-zero principal axis returns a rotation that solves the
    least-squares problem, that rotation maps the normalised principal axis
    onto the normalised target: the two unit vectors are equal and their
    dot product is one.  With the notebook's principal axis it is the
    rotation every pass on that target records as [R_pa_align]. *)
Theorem alignment_maps_axis_onto_target
    (align_vectors : list vec3 -> list vec3 -> result (Rotation.t * R))
    (t pa : vec3) (C : Rotation.t) (rssd : R) :
  t <> zeros -> pa <> zeros ->
  align_vectors [t] [pa] = Ok (C, rssd) ->
  solves_least_squares t pa C ->
  Rotation.apply C (normalize pa) = normalize t /\
  dot (Rotation.apply C (normalize pa)) (normalize t) = 1 /\
  (pa = principal_axis ->
   forall Ra p, allocentric_body align_vectors Ra t = Ok p -> R_pa_align p = C).
Proof.
  intros Ht Hpa Hcall Hopt.
  pose proof (least_squares_aligns t pa C Ht Hpa Hopt) as Hal.
  split; [exact Hal|]. split.
  - rewrite Hal. unfold normalize. rewrite dot_scale_l, dot_scale_r, <- norm_sq.
    pose proof (norm_pos t Ht). field. lra.
  - intros -> Ra p Hp.
    apply allocentric_body_Ok in Hp as (rssd' & Hcall' & _).
    rewrite Hcall in Hcall'. injection Hcall' as -> _. reflexivity.
Qed.

(** C7.  For the target [(0, 0, 1)], which is the principal axis, and the
    identity as allocentric rotation: when the pass succeeds and the
    alignment rotation is the minimal least-squares rotation, the alignment
    rotation is the identity and so is the egocentric rotation. *)
Theorem aligned_scenario_identity
    (align_vectors : list vec3 -> list vec3 -> result (Rotation.t * R))
    (p : pass) :
  allocentric_body align_vectors Rotation.identity (Vec3 0 0 1) = Ok p ->
  minimal_rotation (Vec3 0 0 1) principal_axis (R_pa_align p) ->
  Rotation.as_matrix (R_pa_align p) = eye /\
  Rotation.as_matrix (R_egocentric p) = eye.
Proof.
  intros Hp Hmin. apply minimal_rotation_same in Hmin.
  split; [exact Hmin|].
  apply allocentric_body_Ok in Hp as (_ & _ & _ & -> & _).
  rewrite rotation_mul_identity_r. exact Hmin.
Qed.

(** ** The egocentric scene *)

(** C5.  For any shared rotation and any list of positions along X, the
    generator returns one box per position, in order; the transform of the
    box at position [i] has the shared rotation as its rotation block and
    [(i, 0, -1)] as its translation; its vertices are the cube corners
    moved by that transform; and the same corner of two boxes differs by
    the difference of their positions only. *)
Theorem egocentric_boxes_share_rotation
    (cmap : R -> vec3) (rot : mat3) (xs : list R) :
  Forall2 (fun i box =>
             box = box_plot_data cmap {| lin := rot; off := Vec3 i 0 (-1) |})
          xs (egocentric_boxes cmap rot xs) /\
  (forall i, lin (egocentric_transform rot i) = rot /\
             off (egocentric_transform rot i) = Vec3 i 0 (-1)) /\
  (forall A, box_plot_data cmap A !! "v"
             = Some (FloatArray
                       (map (fun v => vadd (mapply (lin A)
                                              (vmul v (Vec3 extent extent extent)))
                                           (off A))
                            unit_box_vertices))) /\
  (forall i j v, vsub (apply_transform (egocentric_transform rot i) v)
                      (apply_transform (egocentric_transform rot j) v)
                 = Vec3 (i - j) 0 0).
Proof.
  assert (Ht : forall i, egocentric_transform rot i
                         = {| lin := rot; off := Vec3 i 0 (-1) |}).
  { intros i. unfold egocentric_transform, compose, egocentric_translation.
    rewrite diag_ones, mmul_eye_r. reflexivity. }
  split; [|split; [|split]].
  - unfold egocentric_boxes. induction xs as [|i xs IH]; cbn [map]; constructor.
    + rewrite Ht. reflexivity.
    + exact IH.
  - intros i. rewrite Ht. split; reflexivity.
  - intros A. reflexivity.
  - intros i j v. rewrite !Ht. unfold apply_transform. cbn [lin off].
    destruct (mapply rot v) as [a b c]. linalg.
Qed.

(** ** The flag [use_random_rotation] *)

(** C8.  The notebook has the flag off.  With the flag off, the egocentric
    cell uses [np.eye(3)] and the allocentric cell the identity rotation,
    the generator state is left as it was found, and the boxes of both
    scenes are the same whatever the sampler and whatever the generator
    state; with the flag on, each cell takes its rotation from one draw of
    the sampler. *)
Theorem fixed_rotation_is_deterministic
    (rng : Type) (R_random R_random' : rng -> Rotation.t * rng)
    (align_vectors : list vec3 -> list vec3 -> result (Rotation.t * R))
    (cmap : R -> vec3) (g g' : rng) :
  use_random_rotation = false /\
  rotation rng R_random false g = (eye, g) /\
  R_allocentric rng R_random false g = (Rotation.identity, g) /\
  run_cells rng R_random align_vectors cmap false g
    = (egocentric_boxes cmap eye egocentric_positions,
       allocentric_boxes align_vectors cmap Rotation.identity object_centers 5,
       g) /\
  fst (run_cells rng R_random align_vectors cmap false g)
    = fst (run_cells rng R_random' align_vectors cmap false g') /\
  rotation rng R_random true g
    = (Rotation.as_matrix (fst (R_random g)), snd (R_random g)) /\
  R_allocentric rng R_random true g = R_random g.
Proof.
  repeat split.
  cbn [rotation]. destruct (R_random g). reflexivity.
Qed.

(** ** The allocentric layout *)

Lemma norm_on_circle (a r : R) :
  0 <= r -> norm (Vec3 (cos a * r) 0 (sin a * r)) = r.
Proof.
  intros Hr. unfold norm, dot. cbn [vx vy vz].
  replace (cos a * r * (cos a * r) + 0 * 0 + sin a * r * (sin a * r))
    with (((sin a)² + (cos a)²) * (r * r)) by (unfold Rsqr; ring).
  rewrite sin2_cos2, Rmult_1_l. apply sqrt_square, Hr.
Qed.

Lemma sin_PI_mul_neg (t : R) : -1 < t < 0 -> sin (PI * t) < 0.
Proof.
  intros [H1 H2]. pose proof PI_RGT_0 as HPI.
  apply sin_lt_0_var; nra.
Qed.

Lemma angle_in_lower_half : Forall (fun a => - PI < a < 0) angle.
Proof.
  pose proof PI_RGT_0 as HPI.
  unfold angle, linspace, eps. cbn [seq map Nat.sub INR].
  repeat constructor; nra.
Qed.

Lemma object_centers_layout :
  Forall (fun c => norm c = length /\ vy c = 0 /\ vz c < 0) object_centers.
Proof.
  unfold object_centers, angle, linspace, zeros_like, eps.
  cbn [seq map stack_T Nat.sub INR].
  assert (Hl : 0 <= length) by (unfold length; lra).
  repeat constructor; cbn [vy vz];
    try (apply norm_on_circle, Hl);
    try (apply Rmult_neg_pos; [apply sin_PI_mul_neg | ]; unfold length; lra).
Qed.

Section F64Facts.

Import Floats QArith.

Lemma stored_object_centers :
  F64.object_centers F64.cos_sample F64.sin_sample
  = [((-0x1.e6f0e134454ffp+0)%float, 0%float, (-0x1.3c6ef372fe951p-1)%float);
     ((-0x1.2cf2304755a5dp+0)%float, 0%float, (-0x1.9e3779b97f4a8p+0)%float);
     (0x1.1a62633145c07p-53%float, 0%float, (-0x1p+1)%float);
     (0x1.2cf2304755a6p+0%float, 0%float, (-0x1.9e3779b97f4a6p+0)%float);
     (0x1.e6f0e134454ffp+0%float, 0%float, (-0x1.3c6ef372fe94fp-1)%float)].
Proof. vm_compute. reflexivity. Qed.

(** C10, as stated, fails on the stored numbers.  With the correctly
    rounded cosine and sine of the five angles, none of the five float64
    centres is at distance exactly 2 from the origin: the exact sum of
    squares of its coordinates is not 4; and the distance computed in
    float64 is 1.9999999999999998 for the second and the fifth. *)
Lemma stored_centers_off_circle :
  Forall (fun c => ~ (F64.exact_sqnorm c == 4)%Q)
    (F64.object_centers F64.cos_sample F64.sin_sample) /\
  map F64.norm (F64.object_centers F64.cos_sample F64.sin_sample)
  = [2; 0x1.fffffffffffffp+0; 2; 2; 0x1.fffffffffffffp+0]%float.
Proof.
  split.
  - rewrite stored_object_centers.
    repeat constructor; intros H; apply Qeq_bool_iff in H;
      vm_compute in H; discriminate.
  - vm_compute. reflexivity.
Qed.

(** C10, amended.  In exact arithmetic there are five object centres, the
    sampled angles lie strictly between minus pi and zero, and each centre
    lies at distance [length], which is 2, from the camera at the origin,
    has Y coordinate zero and a strictly negative Z coordinate.  The five
    float64 centres, computed with the correctly rounded cosine and sine,
    have Y coordinate exactly zero and a strictly negative Z coordinate,
    and the exact sum of squares of their coordinates is within 2^-51 of
    4. *)
Theorem object_centers_near_half_circle :
  (List.length object_centers = 5%nat /\
   length = 2%R /\
   Forall (fun a => - PI < a < 0)%R angle /\
   Forall (fun c => norm c = length /\ vy c = 0%R /\ (vz c < 0)%R) object_centers) /\
  (List.length (F64.object_centers F64.cos_sample F64.sin_sample) = 5%nat /\
   Forall (fun '(x, y, z) =>
             y = 0%float /\ (z <? 0)%float = true /\
             (- (1 # 2 ^ 51) <= F64.exact_sqnorm (x, y, z) - 4 <= 1 # 2 ^ 51)%Q)
     (F64.object_centers F64.cos_sample F64.sin_sample)).
Proof.
  split.
  - split; [reflexivity|]. split; [reflexivity|].
    split; [apply angle_in_lower_half | apply object_centers_layout].
  - rewrite stored_object_centers. split; [reflexivity|].
    repeat constructor; try (apply Qle_bool_iff; vm_compute; reflexivity).
Qed.


End F64Facts.

(** ** What the notebook hands to the aligner *)

Lemma norm_zeros : norm zeros = 0.
Proof.
  unfold norm, dot, zeros. cbn [vx vy vz].
  replace (0 * 0 + 0 * 0 + 0 * 0) with 0 by ring. apply sqrt_0.
Qed.

(** Neither argument of [align_vectors] is ever the zero vector. *)
Lemma alignment_inputs_nonzero :
  principal_axis <> zeros /\ Forall (fun c => c <> zeros) object_centers.
Proof.
  split.
  - unfold principal_axis, zeros. intros H. injection H as H. lra.
  - eapply Forall_impl; [exact object_centers_layout|].
    intros c (Hn & _) ->. rewrite norm_zeros in Hn. unfold length in Hn. lra.
Qed.

(** The loop body has no check of its own: it raises exactly when the call
    to [align_vectors] does, and with the same exception. *)
Lemma allocentric_body_raises_iff
    (align_vectors : list vec3 -> list vec3 -> result (Rotation.t * R))
    (Ra : Rotation.t) (c : vec3) (e : exn) :
  allocentric_body align_vectors Ra c = Raise e
  <-> align_vectors [c] [principal_axis] = Raise e.
Proof.
  unfold allocentric_body.
  destruct (align_vectors [c] [principal_axis]) as [[Rpa rssd]|e']; cbn.
  - split; discriminate.
  - split; intros H; injection H as ->; reflexivity.
Qed.

(** For a zero target every rotation solves the least-squares problem: the
    description of the returned rotation then singles out none, and says
    nothing about the call raising. *)
Lemma zero_target_any_rotation_solves (b : vec3) (C : Rotation.t) :
  solves_least_squares zeros b C.
Proof.
  intros C'. rewrite !loss_expand.
  assert (H0 : forall x, dot zeros x = 0) by (intros x; linalg).
  rewrite !H0. lra.
Qed.

(** ** The renderer *)

Section RendererFacts.

Variable viewer : Type.
Variable mp_plot : gmap string pyobj -> result viewer.
Variable add_points add_mesh add_lines
  : viewer -> gmap string pyobj -> result viewer.
Variable to_html : viewer -> result string.

(** C9.  [visualize3d] returns HTML only if one of its three arguments is
    a non-empty list; when each of them is [None] or empty, [ploot] is
    still [None] at the [return] statement and the call raises on
    [ploot.to_html] instead of returning. *)
Theorem visualize3d_needs_content
    (points meshes lines : option (list (gmap string pyobj))) :
  (forall html,
     visualize3d viewer mp_plot add_points add_mesh add_lines to_html
       points meshes lines = Ok html ->
     default [] points <> [] \/ default [] meshes <> [] \/ default [] lines <> []) /\
  (default [] points = [] -> default [] meshes = [] -> default [] lines = [] ->
   visualize3d_ploot viewer mp_plot add_points add_mesh add_lines
     points meshes lines = Ok None /\
   visualize3d viewer mp_plot add_points add_mesh add_lines to_html
     points meshes lines = Raise AttributeError).
Proof.
  assert (Hempty :
    default [] points = [] -> default [] meshes = [] -> default [] lines = [] ->
    visualize3d_ploot viewer mp_plot add_points add_mesh add_lines
      points meshes lines = Ok None).
  { unfold visualize3d_ploot. intros -> -> ->. reflexivity. }
  split.
  - intros html H.
    destruct (default [] points) eqn:Hp; [|left; discriminate].
    destruct (default [] meshes) eqn:Hm; [|right; left; discriminate].
    destruct (default [] lines) eqn:Hl; [|right; right; discriminate].
    unfold visualize3d in H. rewrite Hempty in H by (assumption || reflexivity). discriminate.
  - intros Hp Hm Hl. split; [auto|].
    unfold visualize3d. rewrite Hempty by assumption. reflexivity.
Qed.

End RendererFacts.

(** ** Sample runs *)

(** The conditional statements above at sample inputs, each with an aligner
    that is right for the targets used. *)
Lemma egocentric_composition_order_sample :
  exists p, allocentric_body align_to_minus_x quarter_turn_z (Vec3 (-2) 0 0) = Ok p /\
    forall v, Rotation.apply (R_egocentric p) v
              = Rotation.apply (R_pa_align p) (Rotation.apply quarter_turn_z v).
Proof.
  eexists. split; [reflexivity|].
  apply (egocentric_composition_order align_to_minus_x quarter_turn_z
           (Vec3 (-2) 0 0) _ eq_refl).
Defined.


Lemma allocentric_rotation_recovered_sample :
  exists ps,
    allocentric_passes align_to_minus_x quarter_turn_z
      [Vec3 (-2) 0 0; Vec3 (-1) 0 0] 2 = Ok ps /\
    Forall (fun p =>
              Rotation.as_matrix
                (Rotation.mul (Rotation.inv (R_pa_align p)) (R_egocentric p))
              = Rotation.as_matrix quarter_turn_z) ps.
Proof.
  eexists. split; [reflexivity|].
  apply (allocentric_rotation_recovered align_to_minus_x quarter_turn_z
           [Vec3 (-2) 0 0; Vec3 (-1) 0 0] 2 _ eq_refl).
Defined.

Lemma visualize3d_needs_content_sample :
  (exists html,
     ViewerLog.visualize3d
       (Some [<["v" := FloatArray [zeros]]> (<["shading" := Shading (4/10)]> ∅)])
       None None = Ok html /\
     (default [] (Some [<["v" := FloatArray [zeros]]>
                          (<["shading" := Shading (4/10)]> (∅ : gmap string pyobj))])
        <> [] \/ default [] (None : option (list (gmap string pyobj))) <> []
      \/ default [] (None : option (list (gmap string pyobj))) <> [])) /\
  ViewerLog.visualize3d None (Some []) None = Raise AttributeError.
Proof.
  split.
  - eexists. split; [reflexivity|].
    apply (proj1 (visualize3d_needs_content ViewerLog.viewer ViewerLog.mp_plot
                    (ViewerLog.add "points") (ViewerLog.add "mesh")
                    (ViewerLog.add "lines") ViewerLog.to_html
                    (Some [<["v" := FloatArray [zeros]]>
                             (<["shading" := Shading (4/10)]> ∅)])
                    None None) _ eq_refl).
  - apply (proj2 (visualize3d_needs_content ViewerLog.viewer ViewerLog.mp_plot
                    (ViewerLog.add "points") (ViewerLog.add "mesh")
                    (ViewerLog.add "lines") ViewerLog.to_html
                    None (Some []) None) eq_refl eq_refl eq_refl).
Defined.

Lemma alignment_maps_axis_onto_target_sample :
  Rotation.apply quarter_turn_y (normalize principal_axis)
  = normalize (Vec3 (-2) 0 0).
Proof.
  refine (proj1 (alignment_maps_axis_onto_target align_to_minus_x
                   (Vec3 (-2) 0 0) principal_axis quarter_turn_y 0
                   _ _ eq_refl quarter_turn_y_solves)).
  - unfold zeros. intros H. injection H as H. lra.
  - unfold principal_axis, zeros. intros H. injection H as H. lra.
Defined.

Lemma aligned_scenario_identity_sample :
  exists p, allocentric_body align_equal Rotation.identity (Vec3 0 0 1) = Ok p /\
    Rotation.as_matrix (R_pa_align p) = eye /\
    Rotation.as_matrix (R_egocentric p) = eye.
Proof.
  eexists. split; [reflexivity|].
  apply (aligned_scenario_identity align_equal _ eq_refl
           (identity_minimal_same (Vec3 0 0 1))).
Defined.

(** * Further properties of the notebook's code *)

(** ** Rewriting of mesh dictionaries *)

(** X1.  A dictionary that carries a trimesh object under ["mesh"] is rewritten
    into one without that key, with the object's vertices under ["v"] and
    its faces under ["f"]; every other entry, a ["voxel"] entry included,
    is left as it was. *)
Theorem unpack_mesh_trimesh (m : gmap string pyobj) (v : list vec3) (f : list face) :
  m !! "mesh" = Some (Trimesh v f) ->
  exists m', unpack_mesh m = Ok m' /\
    m' !! "mesh" = None /\
    m' !! "v" = Some (FloatArray v) /\
    m' !! "f" = Some (IntArray f) /\
    m' !! "voxel" = m !! "voxel" /\
    forall k, k <> "mesh" -> k <> "v" -> k <> "f" -> m' !! k = m !! k.
Proof.
  intros Hm. unfold unpack_mesh. rewrite Hm. eexists. split; [reflexivity|].
  repeat split.
  - apply lookup_delete_eq.
  - rewrite lookup_delete_ne by discriminate.
    rewrite lookup_insert_ne by discriminate. apply lookup_insert_eq.
  - rewrite lookup_delete_ne by discriminate. apply lookup_insert_eq.
  - rewrite lookup_delete_ne by discriminate.
    rewrite !lookup_insert_ne by discriminate. reflexivity.
  - intros k H1 H2 H3. rewrite lookup_delete_ne by congruence.
    rewrite !lookup_insert_ne by congruence. reflexivity.
Qed.

(** X2.  Without a ["mesh"] entry, a voxel grid under ["voxel"] is rewritten the
    same way from the mesh of its boxes. *)
Theorem unpack_mesh_voxel (m : gmap string pyobj) (v : list vec3) (f : list face) :
  m !! "mesh" = None -> m !! "voxel" = Some (VoxelGrid v f) ->
  exists m', unpack_mesh m = Ok m' /\
    m' !! "voxel" = None /\
    m' !! "v" = Some (FloatArray v) /\
    m' !! "f" = Some (IntArray f) /\
    forall k, k <> "voxel" -> k <> "v" -> k <> "f" -> m' !! k = m !! k.
Proof.
  intros Hm Hv. unfold unpack_mesh. rewrite Hm, Hv. eexists. split; [reflexivity|].
  repeat split.
  - apply lookup_delete_eq.
  - rewrite lookup_delete_ne by discriminate.
    rewrite lookup_insert_ne by discriminate. apply lookup_insert_eq.
  - rewrite lookup_delete_ne by discriminate. apply lookup_insert_eq.
  - intros k H1 H2 H3. rewrite lookup_delete_ne by congruence.
    rewrite !lookup_insert_ne by congruence. reflexivity.
Qed.

(** X3.  A dictionary with neither key goes through unchanged; the dictionaries
    the scene cells build are of that kind. *)
Theorem unpack_mesh_plain (cmap : R -> vec3) (m : gmap string pyobj) (A : affine) :
  (m !! "mesh" = None -> m !! "voxel" = None -> unpack_mesh m = Ok m) /\
  unpack_mesh (box_plot_data cmap A) = Ok (box_plot_data cmap A).
Proof.
  split.
  - intros Hm Hv. unfold unpack_mesh. rewrite Hm, Hv. reflexivity.
  - reflexivity.
Qed.

(** X4.  Rewriting a dictionary that does not carry both keys a second time
    changes nothing. *)
Theorem unpack_mesh_idempotent (m m' : gmap string pyobj) :
  m !! "mesh" = None \/ m !! "voxel" = None ->
  unpack_mesh m = Ok m' -> unpack_mesh m' = Ok m'.
Proof.
  intros Hkeys. unfold unpack_mesh at 1.
  destruct (m !! "mesh") as [o|] eqn:Hm.
  - destruct Hkeys as [Hk|Hk]; [discriminate|].
    destruct o; try discriminate. intros H. injection H as <-.
    unfold unpack_mesh. rewrite lookup_delete_eq.
    rewrite lookup_delete_ne by discriminate.
    rewrite !lookup_insert_ne by discriminate. rewrite Hk. reflexivity.
  - destruct (m !! "voxel") as [o|] eqn:Hv.
    + destruct o; try discriminate. intros H. injection H as <-.
      unfold unpack_mesh. rewrite lookup_delete_ne by discriminate.
      rewrite !lookup_insert_ne by discriminate. rewrite Hm.
      rewrite lookup_delete_eq. reflexivity.
    + intros H. injection H as <-. unfold unpack_mesh. rewrite Hm, Hv. reflexivity.
Qed.

(** ** The order of drawing *)

Lemma log_after_app (ploot : option ViewerLog.viewer)
    (a b : list (string * gmap string pyobj)) :
  log_after (log_after ploot a) b = log_after ploot (a ++ b).
Proof.
  destruct ploot as [v|]; cbn.
  - rewrite app_assoc. reflexivity.
  - destruct a as [|[t c] a]; cbn; reflexivity.
Qed.

Lemma for_each_log (tag : string) (ploot : option ViewerLog.viewer)
    (l : list (gmap string pyobj)) :
  for_each ViewerLog.viewer
    (draw ViewerLog.viewer ViewerLog.mp_plot (ViewerLog.add tag)) ploot l
  = Ok (log_after ploot (map (fun c => (tag, c)) l)).
Proof.
  revert ploot. induction l as [|c l IH]; intros ploot.
  - destruct ploot; cbn; [rewrite app_nil_r|]; reflexivity.
  - destruct ploot as [v|]; cbn [for_each draw map].
    + cbn. rewrite IH. cbn. rewrite <- app_assoc. reflexivity.
    + cbn. rewrite IH. reflexivity.
Qed.

Lemma for_each_unpacked {viewer : Type}
    (body : option viewer -> gmap string pyobj -> result (option viewer))
    (ploot : option viewer) (ms ms' : list (gmap string pyobj)) :
  mapM unpack_mesh ms = Ok ms' ->
  for_each viewer (fun ploot m => m' ← unpack_mesh m; body ploot m') ploot ms
  = for_each viewer body ploot ms'.
Proof.
  revert ploot ms'. induction ms as [|m ms IH]; intros ploot ms' H.
  - injection H as <-. reflexivity.
  - cbn in H. apply bind_Ok in H as (m1 & Hm1 & H).
    apply bind_Ok in H as (ms1 & Hms1 & H). injection H as <-.
    cbn [for_each]. rewrite Hm1. cbn.
    destruct (body ploot m1); cbn; [apply IH, Hms1 | reflexivity].
Qed.

Lemma visualize3d_ploot_log
    (points meshes lines : option (list (gmap string pyobj)))
    (ms : list (gmap string pyobj)) :
  mapM unpack_mesh (default [] meshes) = Ok ms ->
  visualize3d_ploot ViewerLog.viewer ViewerLog.mp_plot
    (ViewerLog.add "points") (ViewerLog.add "mesh") (ViewerLog.add "lines")
    points meshes lines
  = Ok (log_after None
          (map (fun c => ("points", c)) (default [] points)
           ++ map (fun c => ("mesh", c)) ms
           ++ map (fun c => ("lines", c)) (default [] lines))).
Proof.
  intros Hms. unfold visualize3d_ploot.
  rewrite for_each_log. cbn [mbind result_bind].
  rewrite (for_each_unpacked _ _ _ _ Hms), for_each_log. cbn [mbind result_bind].
  rewrite for_each_log, !log_after_app. reflexivity.
Qed.

(** X5.  On a viewer that records its calls: when every mesh dictionary can be
    rewritten, the points are drawn first, then the meshes, then the
    lines, each list in order; the very first item, of whichever kind,
    goes to [mp.plot] and every later one to the [add_*] method of its
    kind. *)
Theorem visualize3d_draw_order
    (points meshes lines : option (list (gmap string pyobj)))
    (ms : list (gmap string pyobj)) :
  mapM unpack_mesh (default [] meshes) = Ok ms ->
  visualize3d_ploot ViewerLog.viewer ViewerLog.mp_plot
    (ViewerLog.add "points") (ViewerLog.add "mesh") (ViewerLog.add "lines")
    points meshes lines
  = Ok (log_after None
          (map (fun c => ("points", c)) (default [] points)
           ++ map (fun c => ("mesh", c)) ms
           ++ map (fun c => ("lines", c)) (default [] lines))).
Proof. apply visualize3d_ploot_log. Qed.

Lemma mapM_unpack_boxes (cmap : R -> vec3) (boxes : list (gmap string pyobj)) :
  Forall (fun b => exists A, b = box_plot_data cmap A) boxes ->
  mapM unpack_mesh boxes = Ok boxes.
Proof.
  induction 1 as [|b boxes [A ->] _ IH]; [reflexivity|].
  cbn. change (unpack_mesh (box_plot_data cmap A)) with (Ok (box_plot_data cmap A)).
  cbn. cbn in IH. rewrite IH. reflexivity.
Qed.

Lemma show_scene_log (cmap : R -> vec3) (boxes : list (gmap string pyobj))
    (to_html : ViewerLog.viewer -> result string) :
  Forall (fun b => exists A, b = box_plot_data cmap A) boxes ->
  show_scene ViewerLog.viewer ViewerLog.mp_plot
    (ViewerLog.add "points") (ViewerLog.add "mesh") (ViewerLog.add "lines")
    to_html boxes
  = to_html (("plot", camera_point) :: map (fun b => ("mesh", b)) boxes).
Proof.
  intros H. unfold show_scene, visualize3d.
  rewrite (visualize3d_ploot_log _ _ _ boxes) by (apply (mapM_unpack_boxes cmap), H).
  cbn. rewrite app_nil_r. reflexivity.
Qed.

(** X6.  Both scene cells show their boxes the same way.  On a viewer that
    records its calls, and whatever [to_html] does with the record, the
    value returned is [to_html] of this record: the camera point, passed to
    [mp.plot], followed by every box of the scene, passed to [add_mesh] in
    the order of the list and unchanged. *)
Theorem scenes_draw_camera_then_boxes (cmap : R -> vec3)
    (to_html : ViewerLog.viewer -> result string) :
  (forall rot xs,
     show_scene ViewerLog.viewer ViewerLog.mp_plot
       (ViewerLog.add "points") (ViewerLog.add "mesh") (ViewerLog.add "lines")
       to_html (egocentric_boxes cmap rot xs)
     = to_html
         (("plot", camera_point)
          :: map (fun b => ("mesh", b)) (egocentric_boxes cmap rot xs))) /\
  (forall align_vectors Ra cs n bs,
     allocentric_boxes align_vectors cmap Ra cs n = Ok bs ->
     show_scene ViewerLog.viewer ViewerLog.mp_plot
       (ViewerLog.add "points") (ViewerLog.add "mesh") (ViewerLog.add "lines")
       to_html bs
     = to_html (("plot", camera_point) :: map (fun b => ("mesh", b)) bs)).
Proof.
  split.
  - intros rot xs. apply (show_scene_log cmap). unfold egocentric_boxes.
    induction xs; cbn [map]; constructor; eauto.
  - intros al Ra cs n bs H. apply (show_scene_log cmap).
    unfold allocentric_boxes in H. apply bind_Ok in H as (ps & _ & H).
    injection H as <-. induction ps; cbn [map]; constructor; eauto.
Qed.

(** ** When the renderer succeeds *)

Section RendererSucceeds.

Variable viewer : Type.
Variable mp_plot : gmap string pyobj -> result viewer.
Variable add_points add_mesh add_lines
  : viewer -> gmap string pyobj -> result viewer.
Variable to_html : viewer -> result string.

Hypothesis mp_plot_returns : forall c, exists v, mp_plot c = Ok v.
Hypothesis add_points_returns : forall v c, exists v', add_points v c = Ok v'.
Hypothesis add_mesh_returns : forall v c, exists v', add_mesh v c = Ok v'.
Hypothesis add_lines_returns : forall v c, exists v', add_lines v c = Ok v'.

Lemma for_each_draw_returns
    (add : viewer -> gmap string pyobj -> result viewer)
    (ploot : option viewer) (l : list (gmap string pyobj)) :
  (forall v c, exists v', add v c = Ok v') ->
  exists ploot', for_each viewer (draw viewer mp_plot add) ploot l = Ok ploot' /\
                 (ploot' = None <-> ploot = None /\ l = []).
Proof.
  intros Hadd. revert ploot. induction l as [|c l IH]; intros ploot.
  - exists ploot. split; [reflexivity|]. split; [auto | intros [H _]; exact H].
  - assert (Hd : exists v, draw viewer mp_plot add ploot c = Ok (Some v)).
    { destruct ploot as [v|]; cbn.
      - destruct (Hadd v c) as [v' ->]. eauto.
      - destruct (mp_plot_returns c) as [v ->]. eauto. }
    destruct Hd as [v Hd]. destruct (IH (Some v)) as (ploot' & Hf & Hn).
    exists ploot'. cbn [for_each]. rewrite Hd. cbn. split; [exact Hf|].
    split.
    + intros H. apply Hn in H as [H _]. discriminate.
    + intros [_ H]. discriminate.
Qed.

(** X7.  When no viewer call raises and every mesh dictionary can be rewritten,
    one non-empty argument is enough: the viewer exists at the [return]
    statement and the result is whatever [to_html] gives for it. *)
Theorem visualize3d_returns
    (points meshes lines : option (list (gmap string pyobj)))
    (ms : list (gmap string pyobj)) :
  mapM unpack_mesh (default [] meshes) = Ok ms ->
  default [] points <> [] \/ default [] meshes <> [] \/ default [] lines <> [] ->
  exists v,
    visualize3d_ploot viewer mp_plot add_points add_mesh add_lines
      points meshes lines = Ok (Some v) /\
    visualize3d viewer mp_plot add_points add_mesh add_lines to_html
      points meshes lines = to_html v.
Proof.
  intros Hms Hne.
  assert (Hms' : default [] meshes <> [] -> ms <> []).
  { destruct (default [] meshes) as [|m l]; [congruence|]. intros _.
    cbn in Hms. apply bind_Ok in Hms as (m1 & _ & Hms).
    apply bind_Ok in Hms as (l1 & _ & Hms). injection Hms as <-. discriminate. }
  unfold visualize3d, visualize3d_ploot.
  destruct (for_each_draw_returns add_points None (default [] points)
              add_points_returns) as (p1 & -> & H1). cbn [mbind result_bind].
  rewrite (for_each_unpacked _ _ _ _ Hms).
  destruct (for_each_draw_returns add_mesh p1 ms add_mesh_returns)
    as (p2 & -> & H2). cbn [mbind result_bind].
  destruct (for_each_draw_returns add_lines p2 (default [] lines)
              add_lines_returns) as (p3 & -> & H3). cbn [mbind result_bind].
  destruct p3 as [v|].
  - exists v. split; reflexivity.
  - exfalso. destruct H3 as [H3 _]. destruct (H3 eq_refl) as [-> Hl].
    destruct H2 as [H2 _]. destruct (H2 eq_refl) as [-> Hm].
    destruct H1 as [H1 _]. destruct (H1 eq_refl) as [_ Hp].
    destruct Hne as [Hne | [Hne | Hne]]; [auto | apply Hms' in Hne; auto | auto].
Qed.

End RendererSucceeds.

(** ** The boxes *)

(** X8.  Whichever way the colours are chosen there is one colour per
    triangle of a box: the plot data of every box has 8 vertices, 12 faces
    whose indices all name one of the 8 vertices, and 12 colours; the
    colour table has 12 entries for either value of [cube_colors_random],
    and with the flag off all of them are [cmap(0.5)]. *)
Theorem box_plot_data_shapes (cmap : R -> vec3) (A : affine) (b : bool) :
  (exists vs fs cs,
     box_plot_data cmap A !! "v" = Some (FloatArray vs) /\
     box_plot_data cmap A !! "f" = Some (IntArray fs) /\
     box_plot_data cmap A !! "c" = Some (FloatArray cs) /\
     List.length vs = 8%nat /\
     List.length fs = 12%nat /\
     List.length cs = 12%nat /\
     Forall (fun '(i, j, k) => (i < 8 /\ j < 8 /\ k < 8)%nat) fs) /\
  List.length (random_colors cmap b) = 12%nat /\
  List.length unit_box_faces = 12%nat /\
  Forall (fun c => c = cmap (1/2)) (random_colors cmap false).
Proof.
  split; [|split; [|split]].
  - do 3 eexists. split; [reflexivity|]. split; [reflexivity|].
    split; [reflexivity|]. split; [reflexivity|]. split; [reflexivity|].
    split; [reflexivity|]. cbn. repeat constructor.
  - destruct b; reflexivity.
  - reflexivity.
  - cbn. repeat constructor.
Qed.

Lemma vsum_trimesh_box (e : vec3) (A : affine) :
  vsum (fst (trimesh_box e A)) = scale 8 (off A).
Proof.
  destruct A as [M T]. unfold trimesh_box, unit_box_vertices, apply_transform.
  cbn [fst map vsum fold_right lin off]. linalg_unfold; field.
Qed.

(** X9.  Every box is centred on its position: the vertices of the box at
    position [i] of the egocentric scene sum to eight times [(i, 0, -1)],
    and those of an allocentric box to eight times its [look_at]. *)
Theorem boxes_centred_on_position
    (align_vectors : list vec3 -> list vec3 -> result (Rotation.t * R)) :
  (forall rot i,
     vsum (fst (trimesh_box (Vec3 extent extent extent)
                  (egocentric_transform rot i)))
     = scale 8 (Vec3 i 0 (-1))) /\
  (forall Ra c p,
     allocentric_body align_vectors Ra c = Ok p ->
     vsum (fst (trimesh_box (Vec3 extent extent extent) (transform p)))
     = scale 8 c).
Proof.
  split.
  - intros rot i. rewrite vsum_trimesh_box. reflexivity.
  - intros Ra c p H. rewrite vsum_trimesh_box.
    apply allocentric_body_Ok in H as (_ & _ & _ & _ & ->). reflexivity.
Qed.

Lemma apply_transform_rigid (C : Rotation.t) (T u v : vec3) :
  let A := compose T (Rotation.as_matrix C) ones in
  dot (vsub (apply_transform A u) (apply_transform A v))
      (vsub (apply_transform A u) (apply_transform A v))
  = dot (vsub u v) (vsub u v).
Proof.
  cbv zeta. unfold apply_transform, compose. cbn [lin off].
  rewrite diag_ones, mmul_eye_r.
  replace (vsub (vadd (mapply (Rotation.as_matrix C) u) T)
                (vadd (mapply (Rotation.as_matrix C) v) T))
    with (Rotation.apply C (vsub u v))
    by (unfold Rotation.apply; destruct (Rotation.as_matrix C); linalg).
  apply dot_rotation.
Qed.

(** X10.  The pose of a box never deforms it: in the egocentric scene, with the
    flag on or off, and in every allocentric pass, the transform keeps the
    distance between any two points. *)
Theorem box_transforms_are_rigid
    (rng : Type) (R_random : rng -> Rotation.t * rng)
    (align_vectors : list vec3 -> list vec3 -> result (Rotation.t * R)) :
  (forall flag g i u v,
     let A := egocentric_transform (fst (rotation rng R_random flag g)) i in
     dot (vsub (apply_transform A u) (apply_transform A v))
         (vsub (apply_transform A u) (apply_transform A v))
     = dot (vsub u v) (vsub u v)) /\
  (forall Ra c p u v,
     allocentric_body align_vectors Ra c = Ok p ->
     dot (vsub (apply_transform (transform p) u) (apply_transform (transform p) v))
         (vsub (apply_transform (transform p) u) (apply_transform (transform p) v))
     = dot (vsub u v) (vsub u v)).
Proof.
  split.
  - intros flag g i u v. cbv zeta. unfold egocentric_transform.
    destruct flag; cbn [rotation].
    + destruct (R_random g) as [r g']. cbn [fst].
      apply (apply_transform_rigid r).
    + cbn [fst]. apply (apply_transform_rigid Rotation.identity).
  - intros Ra c p u v H.
    apply allocentric_body_Ok in H as (_ & _ & _ & _ & ->).
    apply apply_transform_rigid.
Qed.

(** ** The allocentric loop *)

Lemma skipn_nth_error {A : Type} (l : list A) (s : nat) (x : A) :
  nth_error l s = Some x -> skipn s l = x :: skipn (S s) l.
Proof.
  revert s. induction l as [|a l IH]; intros [|s] H; try discriminate.
  - injection H as ->. reflexivity.
  - cbn in H. cbn [skipn]. rewrite (IH s H). reflexivity.
Qed.

Lemma Forall2_seq_firstn {A B : Type} (P : A -> B -> Prop)
    (l : list A) (s n : nat) (bs : list B) :
  Forall2 (fun i b => exists a, nth_error l i = Some a /\ P a b) (seq s n) bs ->
  Forall2 P (firstn n (skipn s l)) bs.
Proof.
  revert s bs. induction n as [|n IH]; intros s bs H.
  - inversion H; subst. constructor.
  - cbn [seq] in H. inversion H as [|i b is' bs' (a & Ha & HP) Hrest]; subst.
    rewrite (skipn_nth_error l s a Ha). cbn [firstn]. constructor; [exact HP|].
    apply IH, Hrest.
Qed.

(** X11.  When the loop over [range(n)] has run, [n] is at most the number of
    object centres, and the passes go with the first [n] centres in order:
    pass [i] looks at centre [i], places its box there, and holds the
    rotation that [align_vectors] returned for that centre. *)
Theorem allocentric_passes_in_order
    (align_vectors : list vec3 -> list vec3 -> result (Rotation.t * R))
    (Ra : Rotation.t) (cs : list vec3) (n : nat) (ps : list pass) :
  allocentric_passes align_vectors Ra cs n = Ok ps ->
  (n <= List.length cs)%nat /\
  Forall2 (fun c p =>
             look_at p = c /\ off (transform p) = c /\
             exists rssd,
               align_vectors [c] [principal_axis] = Ok (R_pa_align p, rssd))
          (firstn n cs) ps.
Proof.
  unfold allocentric_passes. intros H. apply mapM_Ok_Forall2 in H.
  assert (H' : Forall2 (fun i p => exists c, nth_error cs i = Some c /\
                 (look_at p = c /\ off (transform p) = c /\
                  exists rssd,
                    align_vectors [c] [principal_axis] = Ok (R_pa_align p, rssd)))
               (seq 0 n) ps).
  { eapply Forall2_impl; [exact H|]. intros i p Hp. cbn beta in Hp.
    apply allocentric_pass_Ok in Hp as (c & Hc & Hp). exists c. split; [exact Hc|].
    apply allocentric_body_Ok in Hp as (rssd & Ha & Hl & _ & Ht).
    rewrite Ht. cbn [off compose]. eauto. }
  split.
  - destruct n as [|n]; [apply Nat.le_0_l|].
    assert (Hin : In n (seq 0 (S n))) by (apply in_seq; split; [apply Nat.le_0_l | apply Nat.lt_succ_diag_r]).
    clear H. revert Hin. induction H' as [|i p l ps' (c & Hc & _) _ IH]; intros Hin.
    + destruct Hin.
    + destruct Hin as [<- | Hin]; [|exact (IH Hin)].
      apply Nat.le_succ_l. apply nth_error_Some. rewrite Hc. discriminate.
  - apply (Forall2_seq_firstn _ cs 0 n ps) in H'. exact H'.
Qed.

Lemma mapM_first_failure {A B : Type} (f : A -> result B)
    (l1 l2 : list A) (x : A) (e : exn) :
  Forall (fun a => exists b, f a = Ok b) l1 -> f x = Raise e ->
  mapM f (l1 ++ x :: l2) = Raise e.
Proof.
  intros H Hx. induction H as [|a l1 [b Hb] _ IH]; cbn.
  - rewrite Hx. reflexivity.
  - rewrite Hb. cbn. cbn in IH. rewrite IH. reflexivity.
Qed.

Lemma mapM_all_Ok {A B : Type} (f : A -> result B) (l : list A) :
  Forall (fun a => exists b, f a = Ok b) l -> exists bs, mapM f l = Ok bs.
Proof.
  induction 1 as [|a l [b Hb] _ [bs IH]]; [exists []; reflexivity|].
  exists (b :: bs). cbn. rewrite Hb. cbn. cbn in IH. rewrite IH. reflexivity.
Qed.

(** X12.  With an aligner that never raises, the loop over [range(n)] returns
    when there are at least [n] object centres and raises [IndexError]
    when there are fewer. *)
Theorem allocentric_passes_bounds
    (align_vectors : list vec3 -> list vec3 -> result (Rotation.t * R))
    (Ra : Rotation.t) (cs : list vec3) (n : nat) :
  (forall a b, exists r, align_vectors a b = Ok r) ->
  ((n <= List.length cs)%nat ->
   exists ps, allocentric_passes align_vectors Ra cs n = Ok ps) /\
  ((List.length cs < n)%nat ->
   allocentric_passes align_vectors Ra cs n = Raise IndexError).
Proof.
  intros Htotal.
  assert (Hok : forall i, (i < List.length cs)%nat ->
            exists p, allocentric_pass align_vectors Ra cs i = Ok p).
  { intros i Hi. unfold allocentric_pass, index.
    destruct (nth_error cs i) as [c|] eqn:Hc.
    - cbn. unfold allocentric_body.
      destruct (Htotal [c] [principal_axis]) as [[Rpa rssd] ->]. cbn. eauto.
    - apply nth_error_None in Hc. exfalso.
      apply (Nat.lt_irrefl i), (Nat.lt_le_trans _ _ _ Hi Hc). }
  unfold allocentric_passes. split.
  - intros Hn. apply mapM_all_Ok. apply List.Forall_forall. intros i Hi.
    apply in_seq in Hi as [_ Hi]. apply Hok. cbn in Hi.
    apply (Nat.lt_le_trans _ _ _ Hi Hn).
  - intros Hn.
    replace n with (List.length cs + S (n - S (List.length cs)))%nat
      by lia.
    rewrite seq_app. cbn [seq]. apply mapM_first_failure.
    + apply List.Forall_forall. intros i Hi. apply in_seq in Hi as [_ Hi]. apply Hok, Hi.
    + unfold allocentric_pass, index. cbn [Nat.add].
      rewrite (proj2 (nth_error_None cs (List.length cs)) (Nat.le_refl _)).
      reflexivity.
Qed.

(** X13.  The rotation that takes one box of the allocentric scene to another, in
    the camera frame, does not depend on the shared allocentric rotation:
    it is the rotation between the two alignment rotations. *)
Theorem relative_rotation_independent_of_allocentric
    (align_vectors : list vec3 -> list vec3 -> result (Rotation.t * R))
    (Ra : Rotation.t) (c1 c2 : vec3) (p1 p2 : pass) :
  allocentric_body align_vectors Ra c1 = Ok p1 ->
  allocentric_body align_vectors Ra c2 = Ok p2 ->
  Rotation.as_matrix (Rotation.mul (R_egocentric p1) (Rotation.inv (R_egocentric p2)))
  = Rotation.as_matrix (Rotation.mul (R_pa_align p1) (Rotation.inv (R_pa_align p2))).
Proof.
  intros H1 H2.
  apply allocentric_body_Ok in H1 as (_ & _ & _ & -> & _).
  apply allocentric_body_Ok in H2 as (_ & _ & _ & -> & _).
  cbn [Rotation.as_matrix Rotation.mul Rotation.inv].
  rewrite transpose_mmul, mmul_assoc.
  rewrite <- (mmul_assoc (Rotation.as_matrix (R_pa_align p1))).
  rewrite (Rotation.orth_r Ra), mmul_eye_r. reflexivity.
Qed.

(** ** Sample runs of the further properties *)

Lemma unpack_mesh_trimesh_sample :
  exists m', unpack_mesh sample_mesh_dict = Ok m' /\
    m' !! "mesh" = None /\
    m' !! "v" = Some (FloatArray [zeros; ones]) /\
    m' !! "f" = Some (IntArray [(0, 1, 0)%nat]).
Proof.
  destruct (unpack_mesh_trimesh sample_mesh_dict [zeros; ones] [(0, 1, 0)%nat]
              eq_refl) as (m' & H1 & H2 & H3 & H4 & _).
  exists m'. auto.
Defined.

Lemma unpack_mesh_voxel_sample :
  exists m', unpack_mesh sample_voxel_dict = Ok m' /\
    m' !! "voxel" = None /\
    m' !! "v" = Some (FloatArray [zeros; ones]) /\
    m' !! "f" = Some (IntArray [(0, 1, 1)%nat]).
Proof.
  destruct (unpack_mesh_voxel sample_voxel_dict [zeros; ones] [(0, 1, 1)%nat]
              eq_refl eq_refl) as (m' & H1 & H2 & H3 & H4 & _).
  exists m'. auto.
Defined.

Lemma unpack_mesh_plain_sample : unpack_mesh camera_point = Ok camera_point.
Proof.
  apply (proj1 (unpack_mesh_plain (fun _ => zeros) camera_point
                  (Affine eye zeros)) eq_refl eq_refl).
Defined.

Lemma unpack_mesh_idempotent_sample :
  exists m', unpack_mesh sample_mesh_dict = Ok m' /\ unpack_mesh m' = Ok m'.
Proof.
  eexists. split; [reflexivity|].
  apply (unpack_mesh_idempotent sample_mesh_dict _ (or_intror eq_refl) eq_refl).
Defined.

Lemma visualize3d_draw_order_sample :
  exists m',
    unpack_mesh sample_mesh_dict = Ok m' /\
    visualize3d_ploot ViewerLog.viewer ViewerLog.mp_plot
      (ViewerLog.add "points") (ViewerLog.add "mesh") (ViewerLog.add "lines")
      None (Some [sample_mesh_dict]) (Some [camera_point; camera_point])
    = Ok (Some [("plot", m'); ("lines", camera_point); ("lines", camera_point)]).
Proof.
  eexists. split; [reflexivity|].
  apply (visualize3d_draw_order None (Some [sample_mesh_dict])
           (Some [camera_point; camera_point]) _ eq_refl).
Defined.

Lemma scenes_draw_camera_then_boxes_sample :
  exists bs,
    allocentric_boxes align_to_minus_x (fun _ => zeros) quarter_turn_z
      [Vec3 (-2) 0 0] 1 = Ok bs /\
    forall to_html,
      show_scene ViewerLog.viewer ViewerLog.mp_plot
        (ViewerLog.add "points") (ViewerLog.add "mesh") (ViewerLog.add "lines")
        to_html bs
      = to_html (("plot", camera_point) :: map (fun b => ("mesh", b)) bs).
Proof.
  eexists. split; [reflexivity|]. intros to_html.
  apply (proj2 (scenes_draw_camera_then_boxes (fun _ => zeros) to_html)
           align_to_minus_x quarter_turn_z [Vec3 (-2) 0 0] 1%nat _ eq_refl).
Defined.

Lemma visualize3d_returns_sample :
  exists v,
    visualize3d_ploot ViewerLog.viewer ViewerLog.mp_plot
      (ViewerLog.add "points") (ViewerLog.add "mesh") (ViewerLog.add "lines")
      (Some [camera_point]) None None = Ok (Some v) /\
    ViewerLog.visualize3d (Some [camera_point]) None None = ViewerLog.to_html v.
Proof.
  apply (visualize3d_returns ViewerLog.viewer ViewerLog.mp_plot
           (ViewerLog.add "points") (ViewerLog.add "mesh") (ViewerLog.add "lines")
           ViewerLog.to_html
           (fun c => ex_intro _ _ eq_refl)
           (fun v c => ex_intro _ _ eq_refl)
           (fun v c => ex_intro _ _ eq_refl)
           (fun v c => ex_intro _ _ eq_refl)
           (Some [camera_point]) None None [] eq_refl).
  left. discriminate.
Defined.

Lemma boxes_centred_on_position_sample :
  exists p,
    allocentric_body align_to_minus_x quarter_turn_z (Vec3 (-2) 0 0) = Ok p /\
    vsum (fst (trimesh_box (Vec3 extent extent extent) (transform p)))
    = scale 8 (Vec3 (-2) 0 0).
Proof.
  eexists. split; [reflexivity|].
  apply (proj2 (boxes_centred_on_position align_to_minus_x)
           quarter_turn_z (Vec3 (-2) 0 0) _ eq_refl).
Defined.

Lemma box_transforms_are_rigid_sample :
  exists p,
    allocentric_body align_to_minus_x quarter_turn_z (Vec3 (-2) 0 0) = Ok p /\
    dot (vsub (apply_transform (transform p) ones) (apply_transform (transform p) zeros))
        (vsub (apply_transform (transform p) ones) (apply_transform (transform p) zeros))
    = dot (vsub ones zeros) (vsub ones zeros).
Proof.
  eexists. split; [reflexivity|].
  apply (proj2 (box_transforms_are_rigid unit (fun g => (quarter_turn_y, g))
                  align_to_minus_x)
           quarter_turn_z (Vec3 (-2) 0 0) _ ones zeros eq_refl).
Defined.

Lemma allocentric_passes_in_order_sample :
  exists ps,
    allocentric_passes align_to_minus_x quarter_turn_z
      [Vec3 (-2) 0 0; Vec3 (-1) 0 0; Vec3 (-3) 0 0] 2 = Ok ps /\
    Forall2 (fun c p => look_at p = c /\ off (transform p) = c /\
               exists rssd,
                 align_to_minus_x [c] [principal_axis] = Ok (R_pa_align p, rssd))
      [Vec3 (-2) 0 0; Vec3 (-1) 0 0] ps.
Proof.
  eexists. split; [reflexivity|].
  apply (proj2 (allocentric_passes_in_order align_to_minus_x quarter_turn_z
                  [Vec3 (-2) 0 0; Vec3 (-1) 0 0; Vec3 (-3) 0 0] 2 _ eq_refl)).
Defined.

Lemma allocentric_passes_bounds_sample :
  allocentric_passes align_to_minus_x quarter_turn_z
    [Vec3 (-2) 0 0; Vec3 (-1) 0 0] 3 = Raise IndexError.
Proof.
  apply (proj2 (allocentric_passes_bounds align_to_minus_x quarter_turn_z
                  [Vec3 (-2) 0 0; Vec3 (-1) 0 0] 3
                  (fun a b => ex_intro _ _ eq_refl))).
  cbn. lia.
Defined.

Lemma relative_rotation_independent_of_allocentric_sample :
  exists p1 p2,
    allocentric_body align_to_minus_x quarter_turn_z (Vec3 (-2) 0 0) = Ok p1 /\
    allocentric_body align_to_minus_x quarter_turn_z (Vec3 (-1) 0 0) = Ok p2 /\
    Rotation.as_matrix
      (Rotation.mul (R_egocentric p1) (Rotation.inv (R_egocentric p2)))
    = Rotation.as_matrix
        (Rotation.mul (R_pa_align p1) (Rotation.inv (R_pa_align p2))).
Proof.
  do 2 eexists. split; [reflexivity|]. split; [reflexivity|].
  apply (relative_rotation_independent_of_allocentric align_to_minus_x
           quarter_turn_z (Vec3 (-2) 0 0) (Vec3 (-1) 0 0) _ _ eq_refl eq_refl).
Defined.
